(** * asqio-sdk-web: the API client, the device fingerprint probe and the
      topics hook, embedded in Rocq.

    The development follows the TypeScript sources:
    - [client/errors.ts]       the two failure classes,
    - [client/device-info.ts]  [detectDeviceInfo], [detectOS], [detectBrowser],
    - [client/AsqioClient.ts]  the constructor, the eleven operations,
                               [request] and [buildQuery],
    - [hooks/useTopics.ts]     the [fetchTopics] callback of [useTopics].

    JavaScript objects are finite maps from property names to values,
    asynchronous code is a small state-and-exception monad that records every
    call of an injected capability (token provider, fetch, body reader). *)

From Stdlib Require Import ZArith String Ascii List Bool DecimalString Lia.
From stdpp Require Import base option gmap strings list fin_maps.

Set Warnings "-register-all".
Open Scope string_scope.

(* ===================================================================== *)
(** ** JavaScript values *)
(* ===================================================================== *)

(** Values made of primitives, arrays and plain objects: what [JSON.parse]
    yields, what a caller passes as parameters, plus [undefined].  Numbers are
    the integers: status codes, page numbers and counts. Strings are byte
    strings (the UTF-8 text); every pattern of the sources is ASCII. *)
Inductive Data : Type :=
| DUndefined
| DNull
| DBool (b : bool)
| DNum (z : Z)
| DStr (s : string)
| DArr (l : list Data)
| DObj (o : gmap string Data).

(** Any value that can be thrown or stored: plain data, a built-in [Error]
    instance (with its [name]: Error, TypeError, SyntaxError, ...), or an
    instance of one of the two classes of [client/errors.ts]. *)
Inductive JsVal : Type :=
| Plain (d : Data)
| Error (name message : string)
| AsqioError (message : string) (code : Data) (statusCode : Z)
| AsqioNetworkError (message : string) (cause : JsVal).

(** The decimal digits of an integer, with its sign. *)
Definition decimal (z : Z) : string :=
  NilZero.string_of_int (Z.to_int z).

(** The Number value (an IEEE 754 double) nearest to the integer [a >= 0],
    ties going to the even significand.  An integer that is no Number value
    stands for the nearest one, as in a numeric literal or in [JSON.parse];
    [2 ^ 1024] and more stand for [Infinity]. *)
Definition nearest_double (a : Z) : Z :=
  let bits := (Z.log2 a + 1)%Z in
  if (bits <=? 53)%Z then a
  else
    let e := (bits - 53)%Z in
    let q := Z.shiftr a e in
    let r := (a - Z.shiftl q e)%Z in
    let half := Z.shiftl 1 (e - 1) in
    let q' := if (half <? r)%Z || ((r =? half)%Z && Z.odd q)
              then (q + 1)%Z else q in
    Z.shiftl q' e.

(** The multiple of [scale] next to the Number value [v] that still reads
    back as [v]: of the two neighbours the closer one, the even one on a
    tie. *)
Definition shortest_candidate (v scale : Z) : option Z :=
  let lo := (v / scale * scale)%Z in
  let hi := (lo + scale)%Z in
  match (nearest_double lo =? v)%Z, (nearest_double hi =? v)%Z with
  | true, true =>
      if (v - lo <? hi - v)%Z then Some lo
      else if (hi - v <? v - lo)%Z then Some hi
      else if Z.even (lo / scale) then Some lo else Some hi
  | true, false => Some lo
  | false, true => Some hi
  | false, false => None
  end.

(** The integer with the fewest significant digits that reads back as [v]:
    one digit is tried first ([scale] is the power of ten of the leading
    digit of [v]), then two, and so on. *)
Fixpoint shortest_digits (v scale : Z) (fuel : nat) : Z :=
  match fuel with
  | O => v
  | S fuel' =>
      match shortest_candidate v scale with
      | Some c => c
      | None => shortest_digits v (scale / 10) fuel'
      end
  end.

Fixpoint strip_trailing_zeros (s : string) : string :=
  match s with
  | "" => ""
  | String a s' =>
      match strip_trailing_zeros s' with
      | "" => if Ascii.eqb a "0" then "" else String a ""
      | r => String a r
      end
  end.

(** The digits of [c] as [Number.prototype.toString] lays them out: all of
    them up to 21 digits, the exponent form beyond. *)
Definition Number_format (c : Z) : string :=
  let d := decimal c in
  let n := String.length d in
  if (n <=? 21)%nat then d
  else
    match strip_trailing_zeros d with
    | "" => d
    | String a "" => String a ("e+" ++ decimal (Z.of_nat n - 1))
    | String a rest =>
        String a ("." ++ rest ++ "e+" ++ decimal (Z.of_nat n - 1))
    end.

(** [Number.prototype.toString] on an integer.  Up to [2 ^ 53] every integer
    is a Number value and prints as its digits; beyond, the nearest Number
    value prints with the fewest digits that read back as it, padded with
    zeros up to 21 digits and in exponent form from [1e21] on. *)
Definition Number_toString (z : Z) : string :=
  if (Z.abs z <=? 2 ^ 53)%Z then decimal z
  else
    let v := nearest_double (Z.abs z) in
    let sign := if (z <? 0)%Z then "-" else "" in
    if (2 ^ 1024 <=? v)%Z then sign ++ "Infinity"
    else
      let n := String.length (decimal v) in
      sign ++ Number_format (shortest_digits v (10 ^ (Z.of_nat n - 1)) n).

Definition join (sep : string) (l : list string) : string :=
  String.concat sep l.

(** [String(v)], also the conversion of a template literal [`${v}`], for a
    value whose conversion completes: [ToString] below says when it does and
    then agrees ([ToString_String_]).  This is the conversion of the places
    whose declared types leave only such values: the numbers of
    [PaginationParams] in [buildQuery], the rejection in [fetchTopics]. *)
Fixpoint String_ (v : Data) : string :=
  match v with
  | DUndefined => "undefined"
  | DNull => "null"
  | DBool true => "true"
  | DBool false => "false"
  | DNum z => Number_toString z
  | DStr s => s
  | DArr l =>
      join "," (map (fun x => match x with
                              | DUndefined | DNull => ""
                              | _ => String_ x
                              end) l)
  | DObj _ => "[object Object]"
  end.

(** The abstract operation ToString, [None] when it throws a [TypeError].  A
    plain object prints through [Object.prototype.toString] unless it has a
    [toString] property of its own: a property of parsed JSON is no function,
    the inherited [valueOf] then returns the object itself, and the
    conversion throws.  An array joins the conversions of its elements, so it
    throws when one of them does. *)
Fixpoint ToString (v : Data) : option string :=
  match v with
  | DUndefined => Some "undefined"
  | DNull => Some "null"
  | DBool true => Some "true"
  | DBool false => Some "false"
  | DNum z => Some (Number_toString z)
  | DStr s => Some s
  | DArr l =>
      join "," <$>
        mapM (fun x => match x with
                       | DUndefined | DNull => Some ""
                       | _ => ToString x
                       end) l
  | DObj o =>
      match o !! "toString" with
      | Some _ => None
      | None => Some "[object Object]"
      end
  end.

(** The [TypeError] of a conversion that throws (the message is V8's). *)
Definition cannot_convert : JsVal :=
  Error "TypeError" "Cannot convert object to primitive value".

(** How a call or an [async] function completes. *)
Inductive Completion (A : Type) : Type :=
| Returns (a : A)
| Throws (e : JsVal).

Arguments Returns {A} a.
Arguments Throws {A} e.

(** What a [throw] of the outcome of a [new] expression throws: the object
    constructed, or what the constructor threw. *)
Definition thrown (constructed : Completion JsVal) : JsVal :=
  match constructed with
  | Returns e => e
  | Throws e => e
  end.

(** [a ?? b] *)
Definition nullish_coalesce (a b : Data) : Data :=
  match a with
  | DUndefined | DNull => b
  | _ => a
  end.

Notation "a ?? b" := (nullish_coalesce a b) (at level 45, left associativity).

(** [v != null] *)
Definition not_nullish (v : Data) : bool :=
  match v with
  | DUndefined | DNull => false
  | _ => true
  end.

(** [o.k] on an object: a missing property reads as [undefined]. *)
Definition prop (o : gmap string Data) (k : string) : Data :=
  default DUndefined (o !! k).

(** [v?.k], for the property names the client reads ([error], [code]), none of
    which exists on a primitive or an array. *)
Definition optional_prop (v : Data) (k : string) : Data :=
  match v with
  | DObj o => prop o k
  | _ => DUndefined
  end.

Notation "v ?. k" := (optional_prop v k) (at level 40, left associativity).

(** An optional string of the configuration as a value. *)
Definition of_option_string (s : option string) : Data :=
  match s with
  | Some s => DStr s
  | None => DUndefined
  end.

(** The document that the text [JSON.stringify(v)] denotes: properties whose
    value is [undefined] are left out, [undefined] array elements become
    [null].  The textual serialisation itself is not modelled. *)
Fixpoint JSON_stringify (v : Data) : Data :=
  match v with
  | DArr l =>
      DArr (map (fun x => match x with
                          | DUndefined => DNull
                          | _ => JSON_stringify x
                          end) l)
  | DObj o =>
      DObj (omap (fun x => match x with
                           | DUndefined => None
                           | _ => Some (JSON_stringify x)
                           end) o)
  | _ => v
  end.

(* ===================================================================== *)
(** ** client/errors.ts *)
(* ===================================================================== *)

(** [super(message)]: the [Error] constructor converts a defined message to a
    string, [None] when that conversion throws. *)
Definition Error_message (message : Data) : option string :=
  match message with
  | DUndefined => Some ""
  | _ => ToString message
  end.

(** [new AsqioError(message, code, statusCode)]: the object, or the
    [TypeError] of [super(message)]. *)
Definition new_AsqioError (message code : Data) (statusCode : Z)
  : Completion JsVal :=
  match Error_message message with
  | Some text => Returns (AsqioError text code statusCode)
  | None => Throws cannot_convert
  end.

(** [new AsqioNetworkError(message, cause)] *)
Definition new_AsqioNetworkError (message : string) (cause : JsVal) : JsVal :=
  AsqioNetworkError message cause.

(** [new Error(message)] *)
Definition new_Error (message : string) : JsVal :=
  Error "Error" message.

(** [v instanceof Error]: both classes extend [Error]. *)
Definition instanceof_Error (v : JsVal) : bool :=
  match v with
  | Plain _ => false
  | _ => true
  end.

(** [v instanceof AsqioError]: a server-rejection failure. *)
Definition instanceof_AsqioError (v : JsVal) : bool :=
  match v with
  | AsqioError _ _ _ => true
  | _ => false
  end.

(** [v instanceof AsqioNetworkError]: a transport failure. *)
Definition instanceof_AsqioNetworkError (v : JsVal) : bool :=
  match v with
  | AsqioNetworkError _ _ => true
  | _ => false
  end.

(** The [name] and [message] properties of an error object. *)
Definition error_name (e : JsVal) : string :=
  match e with
  | Plain _ => ""
  | Error name _ => name
  | AsqioError _ _ _ => "AsqioError"
  | AsqioNetworkError _ _ => "AsqioNetworkError"
  end.

Definition error_message (e : JsVal) : string :=
  match e with
  | Plain _ => ""
  | Error _ message
  | AsqioError message _ _
  | AsqioNetworkError message _ => message
  end.

(** [String(e)] on a thrown value; an error object prints through
    [Error.prototype.toString]. *)
Definition String_of_thrown (e : JsVal) : string :=
  match e with
  | Plain d => String_ d
  | _ =>
      if String.eqb (error_name e) "" then error_message e
      else if String.eqb (error_message e) "" then error_name e
      else error_name e ++ ": " ++ error_message e
  end.

(* ===================================================================== *)
(** ** client/device-info.ts *)
(* ===================================================================== *)

(** The regular expressions of the probe all have the shape [/lit([cls]+)/]
    or [/lit/]; the helpers below run them the way [RegExp.prototype.test]
    does: leftmost match first, the class repeated greedily. *)

(** [\d] *)
Definition is_digit (c : ascii) : bool :=
  (48 <=? nat_of_ascii c)%nat && (nat_of_ascii c <=? 57)%nat.

(** [[\d.]] *)
Definition digit_or_dot (c : ascii) : bool :=
  is_digit c || Ascii.eqb c ".".

(** [[\d_]] *)
Definition digit_or_underscore (c : ascii) : bool :=
  is_digit c || Ascii.eqb c "_".

(** [Some rest] when [s = lit ++ rest]. *)
Fixpoint strip_prefix (lit s : string) : option string :=
  match lit with
  | "" => Some s
  | String a lit' =>
      match s with
      | "" => None
      | String b s' => if Ascii.eqb a b then strip_prefix lit' s' else None
      end
  end.

(** The longest prefix of [s] whose characters are all in [cls]. *)
Fixpoint take_while (cls : ascii -> bool) (s : string) : string :=
  match s with
  | "" => ""
  | String a s' => if cls a then String a (take_while cls s') else ""
  end.

(** A match of [/lit([cls]+)/] anchored at the start of [s]: the capture. *)
Definition match_here (lit : string) (cls : ascii -> bool) (s : string)
  : option string :=
  match strip_prefix lit s with
  | Some rest =>
      match take_while cls rest with
      | "" => None
      | v => Some v
      end
  | None => None
  end.

(** [/lit([cls]+)/.test(s)] followed by [RegExp.$1]: the first capture of the
    leftmost match, [None] when the test fails. *)
Fixpoint regex_capture (lit : string) (cls : ascii -> bool) (s : string)
  : option string :=
  match match_here lit cls s with
  | Some v => Some v
  | None =>
      match s with
      | "" => None
      | String _ s' => regex_capture lit cls s'
      end
  end.

(** [/lit/.test(s)] *)
Fixpoint regex_test (lit s : string) : bool :=
  match strip_prefix lit s with
  | Some _ => true
  | None =>
      match s with
      | "" => false
      | String _ s' => regex_test lit s'
      end
  end.

(** [s.replace(/_/g, '.')] *)
Fixpoint replace_underscores (s : string) : string :=
  match s with
  | "" => ""
  | String a s' =>
      String (if Ascii.eqb a "_" then "."%char else a) (replace_underscores s')
  end.

(** The ambient signals the probe reads: [navigator] (which may be undefined)
    and [Intl.DateTimeFormat().resolvedOptions().timeZone]. *)
Record Navigator := {
  userAgent : string;
  language : string;
}.

Record Environment := {
  navigator : option Navigator;
  timeZone : string;
}.

Record DeviceInfo := {
  platform : string;
  os_version : string;
  device_model : string;
  locale : string;
  timezone : string;
}.

(** [s || d] on strings: the empty string is falsy. *)
Definition or_string (s d : string) : string :=
  if String.eqb s "" then d else s.

Definition detectOS (ua : string) : string :=
  match regex_capture "Windows NT " digit_or_dot ua with
  | Some v => "Windows " ++ v
  | None =>
  match regex_capture "Mac OS X " digit_or_underscore ua with
  | Some v => "macOS " ++ replace_underscores v
  | None =>
  match regex_capture "Android " digit_or_dot ua with
  | Some v => "Android " ++ v
  | None =>
  match regex_capture "iPhone OS " digit_or_underscore ua with
  | Some v => "iOS " ++ replace_underscores v
  | None =>
  if regex_test "Linux" ua then "Linux" else "Unknown"
  end end end end.

Definition detectBrowser (ua : string) : string :=
  match regex_capture "Edg/" digit_or_dot ua with
  | Some v => "Edge " ++ v
  | None =>
  match regex_capture "Chrome/" digit_or_dot ua with
  | Some v => "Chrome " ++ v
  | None =>
  match regex_capture "Firefox/" digit_or_dot ua with
  | Some v => "Firefox " ++ v
  | None =>
  match regex_capture "Safari/" digit_or_dot ua, negb (regex_test "Chrome" ua) with
  | Some v, true => "Safari " ++ v
  | _, _ => or_string ua "Unknown"
  end end end end.

Definition detectDeviceInfo (env : Environment) : DeviceInfo :=
  let ua := match navigator env with
            | Some nav => userAgent nav
            | None => ""
            end in
  {| platform := "web";
     os_version := detectOS ua;
     device_model := detectBrowser ua;
     locale := match navigator env with
               | Some nav => language nav
               | None => "en"
               end;
     timezone := timeZone env |}.

(* ===================================================================== *)
(** ** Promises, injected capabilities and the asynchronous monad *)
(* ===================================================================== *)

(** How an awaited promise settles. *)
Inductive Promise (A : Type) : Type :=
| Fulfilled (a : A)
| Rejected (reason : JsVal).

Arguments Fulfilled {A} a.
Arguments Rejected {A} reason.

(** [RequestInit]: the options the operations pass to [request], and the
    options [request] passes to [fetch].  [body] holds the document of the
    JSON text. *)
Record RequestInit := {
  method : option string;
  body : option Data;
  headers : option (gmap string string);
}.

(** The part of a [Response] the client reads. *)
Record Response := {
  ok : bool;
  status : Z;
  json : Promise Data;
}.

(** The global scope: the fetch primitive and the signals of the probe. *)
Record World := {
  fetch : string -> RequestInit -> Promise Response;
  environment : Environment;
}.

(** A call of an injected capability. *)
Inductive Event : Type :=
| CallGetToken
| CallFetch (url : string) (init : RequestInit)
| CallJson.

(** An asynchronous computation: it extends the log of calls made so far and
    completes. *)
Definition Async (A : Type) : Type :=
  list Event -> Completion A * list Event.

#[global] Instance Async_ret : MRet Async :=
  fun A a log => (Returns a, log).

#[global] Instance Async_bind : MBind Async :=
  fun A B k m log =>
    match m log with
    | (Returns a, log') => k a log'
    | (Throws e, log') => (Throws e, log')
    end.

(** [throw e] *)
Definition throw {A} (e : JsVal) : Async A :=
  fun log => (Throws e, log).

(** [try { m } catch (e) { handler e }] *)
Definition try_catch {A} (m : Async A) (handler : JsVal -> Async A) : Async A :=
  fun log =>
    match m log with
    | (Returns a, log') => (Returns a, log')
    | (Throws e, log') => handler e log'
    end.

(** [await p], where [p] is the promise returned by the call [ev]. *)
Definition await {A} (ev : Event) (p : Promise A) : Async A :=
  fun log =>
    (match p with
     | Fulfilled a => Returns a
     | Rejected e => Throws e
     end, (log ++ [ev])%list).

(** Running a computation from an empty log. *)
Definition run {A} (m : Async A) : Completion A * list Event := m [].
Definition outcome {A} (m : Async A) : Completion A := (run m).1.
Definition calls {A} (m : Async A) : list Event := (run m).2.

(** [v.k] where [v] may be anything: reading a property of [undefined] or
    [null] throws a [TypeError] (the message is V8's). *)
Definition member (v : Data) (k : string) : Async Data :=
  match v with
  | DUndefined | DNull =>
      throw (Error "TypeError"
               ("Cannot read properties of " ++ String_ v ++
                " (reading '" ++ k ++ "')"))
  | _ => mret (v ?. k)
  end.

(* ===================================================================== *)
(** ** client/AsqioClient.ts *)
(* ===================================================================== *)

(** *** URLSearchParams *)

Definition is_alnum (c : ascii) : bool :=
  let n := nat_of_ascii c in
  is_digit c
  || ((65 <=? n)%nat && (n <=? 90)%nat)
  || ((97 <=? n)%nat && (n <=? 122)%nat).

Definition hex_digit (n : nat) : ascii :=
  match String.get n "0123456789ABCDEF" with
  | Some c => c
  | None => "0"%char
  end.

(** The application/x-www-form-urlencoded byte serialiser. *)
Definition urlencode_byte (c : ascii) : string :=
  if Ascii.eqb c " " then "+"
  else if is_alnum c || Ascii.eqb c "*" || Ascii.eqb c "-"
          || Ascii.eqb c "." || Ascii.eqb c "_"
  then String c ""
  else String "%" (String (hex_digit (nat_of_ascii c / 16))
                     (String (hex_digit (nat_of_ascii c mod 16)) "")).

Fixpoint urlencode (s : string) : string :=
  match s with
  | "" => ""
  | String c s' => urlencode_byte c ++ urlencode s'
  end.

(** [search.set(name, value)]: the first pair named [name] takes the value and
    the later ones go; without one, the pair is appended. *)
Fixpoint search_set (name value : string) (search : list (string * string))
  : list (string * string) :=
  match search with
  | [] => [(name, value)]
  | (n, v) :: rest =>
      if String.eqb n name
      then (n, value) :: List.filter (fun p => negb (String.eqb p.1 name)) rest
      else (n, v) :: search_set name value rest
  end.

(** [search.toString()] *)
Definition search_toString (search : list (string * string)) : string :=
  join "&" (map (fun p => urlencode p.1 ++ "=" ++ urlencode p.2) search).

(** *** Configuration and construction *)

Module AsqioConfig.
(** [getToken] is the settlement of the promise the provider returns when
    the client calls it. *)
Record t := {
  baseUrl : string;
  tenantKey : string;
  getToken : Promise string;
  appVersion : option string;
}.
End AsqioConfig.

Record AsqioClient := {
  baseUrl : string;
  tenantKey : string;
  getToken : Promise string;
  appVersion : option string;
}.

Fixpoint all_slashes (s : string) : bool :=
  match s with
  | "" => true
  | String a s' => Ascii.eqb a "/" && all_slashes s'
  end.

(** [s.replace(/\/+$/, '')]: the match starts at the leftmost slash from
    which only slashes remain up to the end, and is replaced by nothing. *)
Fixpoint strip_trailing_slashes (s : string) : string :=
  match s with
  | "" => ""
  | String a s' =>
      if Ascii.eqb a "/" && all_slashes s' then ""
      else String a (strip_trailing_slashes s')
  end.

(** [new AsqioClient(config)] *)
Definition new_AsqioClient (config : AsqioConfig.t) : AsqioClient :=
  {| baseUrl := strip_trailing_slashes (AsqioConfig.baseUrl config);
     tenantKey := AsqioConfig.tenantKey config;
     getToken := AsqioConfig.getToken config;
     appVersion := AsqioConfig.appVersion config |}.

(** *** Internal *)

(** [{ ...base, k1: v1, ..., kn: vn }]: later properties win. *)
Definition object_literal {V} (base : gmap string V)
    (props : list (string * V)) : gmap string V :=
  foldl (fun o kv => <[kv.1 := kv.2]> o) base props.

(** [{ ...base, ...later }]: the properties of [later] win. *)
Definition spread_over {V} (base later : gmap string V) : gmap string V :=
  later ∪ base.

(** The [headers] object literal of [request]. *)
Definition request_headers (c : AsqioClient) (token : string)
    (init : option RequestInit) : gmap string string :=
  spread_over
    (object_literal ∅
       [ ("Authorization", "Bearer " ++ token);
         ("X-Tenant-Key", tenantKey c);
         ("Content-Type", "application/json");
         ("Accept", "application/json") ])
    (default ∅ (init ≫= headers)).

(** [{ ...init, headers }] *)
Definition with_headers (init : option RequestInit)
    (headers : gmap string string) : RequestInit :=
  {| method := init ≫= method;
     body := init ≫= body;
     headers := Some headers |}.

Definition request (c : AsqioClient) (w : World) (path : string)
    (init : option RequestInit) : Async Data :=
  token ← try_catch (await CallGetToken (getToken c))
            (fun e => throw (new_AsqioNetworkError
                               "Failed to retrieve auth token" e));
  let url := baseUrl c ++ path in
  let headers := request_headers c token init in
  response ← try_catch (await (CallFetch url (with_headers init headers))
                          (fetch w url (with_headers init headers)))
               (fun e => throw (new_AsqioNetworkError
                                  "Network request failed" e));
  if (status response =? 204)%Z then mret DUndefined
  else if negb (ok response) then
    errorBody ← try_catch (await CallJson (json response))
                  (fun _ => mret DUndefined);
    throw (thrown
             (new_AsqioError
                (errorBody ?. "error" ??
                   DStr ("Request failed with status " ++
                         Number_toString (status response)))
                (errorBody ?. "code" ?? DStr "INTERNAL_SERVER_ERROR")
                (status response)))
  else await CallJson (json response).

Definition buildQuery (params : option (gmap string Data)) : string :=
  match params with
  | None => ""
  | Some params =>
      let search := [] in
      let search :=
        if not_nullish (prop params "page")
        then search_set "page" (String_ (prop params "page")) search
        else search in
      let search :=
        if not_nullish (prop params "per_page")
        then search_set "per_page" (String_ (prop params "per_page")) search
        else search in
      let qs := search_toString search in
      if String.eqb qs "" then "" else "?" ++ qs
  end.

(** *** Topics *)

Definition getTopics (c : AsqioClient) (w : World) : Async Data :=
  res ← request c w "/topics" None;
  member res "topics".

(** *** Tickets *)

Definition getTickets (c : AsqioClient) (w : World)
    (params : option (gmap string Data)) : Async Data :=
  let query := buildQuery params in
  request c w ("/tickets" ++ query) None.

Definition getTicket (c : AsqioClient) (w : World) (id : string)
  : Async Data :=
  request c w ("/tickets/" ++ id) None.

(** The [body] object literal of [createTicket]. *)
Definition createTicket_body (c : AsqioClient) (w : World)
    (params : gmap string Data) : gmap string Data :=
  let deviceInfo := detectDeviceInfo (environment w) in
  object_literal params
    [ ("platform", prop params "platform" ?? DStr (platform deviceInfo));
      ("os_version", prop params "os_version" ?? DStr (os_version deviceInfo));
      ("device_model",
        prop params "device_model" ?? DStr (device_model deviceInfo));
      ("locale", prop params "locale" ?? DStr (locale deviceInfo));
      ("timezone", prop params "timezone" ?? DStr (timezone deviceInfo));
      ("app_version",
        prop params "app_version" ?? of_option_string (appVersion c)) ].

Definition createTicket (c : AsqioClient) (w : World)
    (params : gmap string Data) : Async Data :=
  let body := createTicket_body c w params in
  request c w "/tickets"
    (Some {| method := Some "POST";
             body := Some (JSON_stringify (DObj body));
             headers := None |}).

(** *** Messages *)

Definition getMessages (c : AsqioClient) (w : World) (ticketId : string)
    (params : option (gmap string Data)) : Async Data :=
  let query := buildQuery params in
  request c w ("/tickets/" ++ ticketId ++ "/messages" ++ query) None.

Definition sendMessage (c : AsqioClient) (w : World) (ticketId : string)
    (params : gmap string Data) : Async Data :=
  request c w ("/tickets/" ++ ticketId ++ "/messages")
    (Some {| method := Some "POST";
             body := Some (JSON_stringify
                             (DObj {[ "message" :=
                                DObj {[ "body" := prop params "body" ]} ]}));
             headers := None |}).

(** *** Read status *)

Definition markAsRead (c : AsqioClient) (w : World) (ticketId : string)
  : Async Data :=
  _ ← request c w ("/tickets/" ++ ticketId ++ "/read")
        (Some {| method := Some "POST"; body := None; headers := None |});
  mret DUndefined.

Definition getUnreadCount (c : AsqioClient) (w : World) : Async Data :=
  res ← request c w "/unread_count" None;
  member res "unread_count".

(** *** Devices *)

Definition registerDevice (c : AsqioClient) (w : World)
    (params : gmap string Data) : Async Data :=
  request c w "/devices"
    (Some {| method := Some "POST";
             body := Some (JSON_stringify (DObj {[ "device" := DObj params ]}));
             headers := None |}).

Definition updateDevice (c : AsqioClient) (w : World) (id : string)
    (params : gmap string Data) : Async Data :=
  request c w ("/devices/" ++ id)
    (Some {| method := Some "PUT";
             body := Some (JSON_stringify (DObj {[ "device" := DObj params ]}));
             headers := None |}).

Definition deleteDevice (c : AsqioClient) (w : World) (id : string)
  : Async Data :=
  _ ← request c w ("/devices/" ++ id)
        (Some {| method := Some "DELETE"; body := None; headers := None |});
  mret DUndefined.

(** *** The public operations, as one type *)

Inductive Operation : Type :=
| GetTopics
| GetTickets (params : option (gmap string Data))
| GetTicket (id : string)
| CreateTicket (params : gmap string Data)
| GetMessages (ticketId : string) (params : option (gmap string Data))
| SendMessage (ticketId : string) (params : gmap string Data)
| MarkAsRead (ticketId : string)
| GetUnreadCount
| RegisterDevice (params : gmap string Data)
| UpdateDevice (id : string) (params : gmap string Data)
| DeleteDevice (id : string).

Definition perform (c : AsqioClient) (w : World) (op : Operation)
  : Async Data :=
  match op with
  | GetTopics => getTopics c w
  | GetTickets params => getTickets c w params
  | GetTicket id => getTicket c w id
  | CreateTicket params => createTicket c w params
  | GetMessages ticketId params => getMessages c w ticketId params
  | SendMessage ticketId params => sendMessage c w ticketId params
  | MarkAsRead ticketId => markAsRead c w ticketId
  | GetUnreadCount => getUnreadCount c w
  | RegisterDevice params => registerDevice c w params
  | UpdateDevice id params => updateDevice c w id params
  | DeleteDevice id => deleteDevice c w id
  end.

(** The operations that read a property of the parsed response. *)
Definition unwraps (op : Operation) : bool :=
  match op with
  | GetTopics | GetUnreadCount => true
  | _ => false
  end.

(* ===================================================================== *)
(** ** hooks/useTopics.ts *)
(* ===================================================================== *)

(** The three state cells of the hook. *)
Record TopicsState := {
  topics : Data;
  loading : bool;
  error : option JsVal;
}.

(** [useState([])], [useState(true)], [useState(null)] *)
Definition useTopics_initial : TopicsState :=
  {| topics := DArr []; loading := true; error := None |}.

(** A call of one of the three setters. *)
Inductive SetState : Type :=
| SetTopics (v : Data)
| SetLoading (b : bool)
| SetError (e : option JsVal).

Definition apply_set (st : TopicsState) (u : SetState) : TopicsState :=
  match u with
  | SetTopics v => {| topics := v; loading := loading st; error := error st |}
  | SetLoading b => {| topics := topics st; loading := b; error := error st |}
  | SetError e => {| topics := topics st; loading := loading st; error := e |}
  end.

Definition apply_sets (st : TopicsState) (us : list SetState) : TopicsState :=
  foldl apply_set st us.

(** [fetchTopics], up to its [await]. *)
Definition fetchTopics_before_await : list SetState :=
  [SetLoading true; SetError None].

(** [fetchTopics], from the settlement of [client.getTopics()] on. *)
Definition fetchTopics_after_await (settled : Completion Data)
  : list SetState :=
  (match settled with
   | Returns result => [SetTopics result]
   | Throws e =>
       [SetError (Some (if instanceof_Error e then e
                        else new_Error (String_of_thrown e)))]
   end ++ [SetLoading false])%list.

(** The setter calls of one invocation of [fetchTopics]. *)
Definition fetchTopics (settled : Completion Data) : list SetState :=
  (fetchTopics_before_await ++ fetchTopics_after_await settled)%list.

(** The hook on top of a client: the effect run on mount, and [refetch]. *)
Definition mount (c : AsqioClient) (w : World) : TopicsState :=
  apply_sets useTopics_initial (fetchTopics (outcome (getTopics c w))).

Definition refetch (c : AsqioClient) (w : World) (st : TopicsState)
  : TopicsState :=
  apply_sets st (fetchTopics (outcome (getTopics c w))).

Definition is_SetLoading_false (u : SetState) : bool :=
  match u with
  | SetLoading false => true
  | _ => false
  end.

(* ===================================================================== *)
(** ** Vocabulary of the statements *)
(* ===================================================================== *)

Fixpoint string_forall (cls : ascii -> bool) (s : string) : bool :=
  match s with
  | "" => true
  | String a s' => cls a && string_forall cls s'
  end.

(** [ua] holds the literal [lit] followed by at least one character of the
    class [cls]: a signature such as [Edg/120.0]. *)
Definition has_token (lit : string) (cls : ascii -> bool) (ua : string)
  : Prop :=
  exists pre v post,
    ua = pre ++ lit ++ v ++ post /\ v <> "" /\ string_forall cls v = true.

(** [lit] occurs somewhere in [ua]. *)
Definition occurs (lit ua : string) : Prop :=
  exists pre post, ua = pre ++ lit ++ post.

Definition ends_with_slash (s : string) : Prop :=
  exists s', s = s' ++ "/".

Definition starts_with_slash (s : string) : Prop :=
  exists s', s = "/" ++ s'.

(** [n] separators. *)
Fixpoint slashes (n : nat) : string :=
  match n with
  | O => ""
  | S n => "/" ++ slashes n
  end.

(** A property the caller supplied: present and neither [undefined] nor
    [null]. *)
Definition supplied (params : gmap string Data) (k : string) : option Data :=
  match params !! k with
  | Some DUndefined | Some DNull | None => None
  | Some v => Some v
  end.

(** The property [k] of the body that goes out is the caller's value when
    [k] was supplied, else [auto], the auto-filled value; a property whose
    value is [undefined] is not part of the JSON text. *)
Definition filled (params sent : gmap string Data) (k : string) (auto : Data)
  : Prop :=
  sent !! k =
  match supplied params k with
  | Some v => Some (JSON_stringify v)
  | None =>
      match auto with
      | DUndefined => None
      | _ => Some auto
      end
  end.

(** The keys [createTicket] fills in. *)
Definition autofill_keys : list string :=
  ["platform"; "os_version"; "device_model"; "locale"; "timezone";
   "app_version"].

(** What [createTicket] fills in for a key the caller left out. *)
Definition autofill (c : AsqioClient) (w : World) (k : string) : Data :=
  let deviceInfo := detectDeviceInfo (environment w) in
  if String.eqb k "platform" then DStr (platform deviceInfo)
  else if String.eqb k "os_version" then DStr (os_version deviceInfo)
  else if String.eqb k "device_model" then DStr (device_model deviceInfo)
  else if String.eqb k "locale" then DStr (locale deviceInfo)
  else if String.eqb k "timezone" then DStr (timezone deviceInfo)
  else if String.eqb k "app_version" then of_option_string (appVersion c)
  else DUndefined.

(* ===================================================================== *)
(** ** Sample inputs, after the test suite *)
(* ===================================================================== *)

Module Sample.
Definition chrome_ua : string :=
  "Mozilla/5.0 (Macintosh; Intel Mac OS X 10_15_7) AppleWebKit/537.36 (KHTML, like Gecko) Chrome/120.0.0.0 Safari/537.36".

Definition edge_ua : string :=
  "Mozilla/5.0 (Windows NT 10.0; Win64; x64) AppleWebKit/537.36 (KHTML, like Gecko) Chrome/120.0.0.0 Safari/537.36 Edg/120.0.2210.91".

Definition firefox_ua : string :=
  "Mozilla/5.0 (Windows NT 10.0; Win64; x64; rv:121.0) Gecko/20100101 Firefox/121.0".

Definition safari_ua : string :=
  "Mozilla/5.0 (Macintosh; Intel Mac OS X 10_15_7) AppleWebKit/605.1.15 (KHTML, like Gecko) Version/17.2 Safari/605.1.15".

Definition env : Environment :=
  {| navigator := Some {| userAgent := chrome_ua; language := "en-US" |};
     timeZone := "Asia/Tokyo" |}.

Definition config : AsqioConfig.t :=
  {| AsqioConfig.baseUrl := "https://api.example.com/api/v1";
     AsqioConfig.tenantKey := "test-tenant";
     AsqioConfig.getToken := Fulfilled "test-token";
     AsqioConfig.appVersion := None |}.

Definition config_slashes : AsqioConfig.t :=
  {| AsqioConfig.baseUrl := "https://api.example.com/api/v1///";
     AsqioConfig.tenantKey := "test-tenant";
     AsqioConfig.getToken := Fulfilled "test-token";
     AsqioConfig.appVersion := Some "2.0.0" |}.

Definition config_no_token : AsqioConfig.t :=
  {| AsqioConfig.baseUrl := "https://api.example.com/api/v1";
     AsqioConfig.tenantKey := "test-tenant";
     AsqioConfig.getToken := Rejected (Error "Error" "Token expired");
     AsqioConfig.appVersion := None |}.

Definition client : AsqioClient := new_AsqioClient config.

(** A world whose [fetch] settles the same way for every call. *)
Definition world (settles : Promise Response) : World :=
  {| fetch := fun _ _ => settles; environment := env |}.

Definition okJson (b : Data) : Promise Response :=
  Fulfilled {| ok := true; status := 200; json := Fulfilled b |}.

Definition noContent : Promise Response :=
  Fulfilled {| ok := true; status := 204;
               json := Rejected (Error "Error" "No content") |}.

Definition errorJson (st : Z) (err code : string) : Promise Response :=
  Fulfilled {| ok := false; status := st;
               json := Fulfilled (DObj (<["error" := DStr err]>
                                          {[ "code" := DStr code ]})) |}.

(** A body whose [error] is an object with a [toString] property. *)
Definition errorObject : Promise Response :=
  Fulfilled {| ok := false; status := 500;
               json := Fulfilled
                         (DObj {[ "error" :=
                            DObj {[ "toString" := DNum 1 ]} ]}) |}.

Definition errorNonJson (st : Z) : Promise Response :=
  Fulfilled {| ok := false; status := st;
               json := Rejected (Error "SyntaxError" "Unexpected token") |}.

(** Parameters of [createTicket]: the plain call of the tests, and one
    with an explicit [null]. *)
Definition hello : gmap string Data := {[ "message" := DStr "Hello" ]}.

Definition hello_null_locale : gmap string Data :=
  <["locale" := DNull]> hello.

(** The options [createTicket] hands to [fetch] for [params]. *)
Definition create_options (params : gmap string Data) (w : World)
  : RequestInit :=
  with_headers
    (Some {| method := Some "POST";
             body := Some (JSON_stringify
                             (DObj (createTicket_body client w params)));
             headers := None |})
    (request_headers client "test-token" None).

Definition topics : Data :=
  DArr [ DObj (<["id" := DStr "topic-1"]> {[ "name" := DStr "billing" ]});
         DObj (<["id" := DStr "topic-2"]> {[ "name" := DStr "account" ]}) ].
End Sample.

(* ===================================================================== *)
(** ** The operations, read as a table *)
(* ===================================================================== *)

(** The path each operation hands to [request]. *)
Definition op_path (op : Operation) : string :=
  match op with
  | GetTopics => "/topics"
  | GetTickets params => "/tickets" ++ buildQuery params
  | GetTicket id => "/tickets/" ++ id
  | CreateTicket _ => "/tickets"
  | GetMessages ticketId params =>
      "/tickets/" ++ ticketId ++ "/messages" ++ buildQuery params
  | SendMessage ticketId _ => "/tickets/" ++ ticketId ++ "/messages"
  | MarkAsRead ticketId => "/tickets/" ++ ticketId ++ "/read"
  | GetUnreadCount => "/unread_count"
  | RegisterDevice _ => "/devices"
  | UpdateDevice id _ => "/devices/" ++ id
  | DeleteDevice id => "/devices/" ++ id
  end.

(** The options each operation hands to [request]. *)
Definition op_init (c : AsqioClient) (w : World) (op : Operation)
  : option RequestInit :=
  match op with
  | GetTopics | GetTickets _ | GetTicket _ | GetMessages _ _
  | GetUnreadCount => None
  | CreateTicket params =>
      Some {| method := Some "POST";
              body := Some (JSON_stringify
                              (DObj (createTicket_body c w params)));
              headers := None |}
  | SendMessage _ params =>
      Some {| method := Some "POST";
              body := Some (JSON_stringify
                              (DObj {[ "message" :=
                                 DObj {[ "body" := prop params "body" ]} ]}));
              headers := None |}
  | MarkAsRead _ =>
      Some {| method := Some "POST"; body := None; headers := None |}
  | RegisterDevice params =>
      Some {| method := Some "POST";
              body := Some (JSON_stringify (DObj {[ "device" := DObj params ]}));
              headers := None |}
  | UpdateDevice _ params =>
      Some {| method := Some "PUT";
              body := Some (JSON_stringify (DObj {[ "device" := DObj params ]}));
              headers := None |}
  | DeleteDevice _ =>
      Some {| method := Some "DELETE"; body := None; headers := None |}
  end.

(** The operations that await [request] and return nothing. *)
Definition discards (op : Operation) : bool :=
  match op with
  | MarkAsRead _ | DeleteDevice _ => true
  | _ => false
  end.

(** What each operation makes of the value [request] resolves with. *)
Definition op_result (op : Operation) (res : Data) : Completion Data :=
  match op with
  | GetTopics => outcome (member res "topics")
  | GetUnreadCount => outcome (member res "unread_count")
  | MarkAsRead _ | DeleteDevice _ => Returns DUndefined
  | _ => Returns res
  end.

(** The four headers [request] writes itself. *)
Definition default_headers (c : AsqioClient) (token : string)
  : gmap string string :=
  object_literal ∅
    [ ("Authorization", "Bearer " ++ token);
      ("X-Tenant-Key", tenantKey c);
      ("Content-Type", "application/json");
      ("Accept", "application/json") ].

Definition is_CallGetToken (ev : Event) : bool :=
  match ev with
  | CallGetToken => true
  | _ => false
  end.

Definition is_CallFetch (ev : Event) : bool :=
  match ev with
  | CallFetch _ _ => true
  | _ => false
  end.

Definition is_CallJson (ev : Event) : bool :=
  match ev with
  | CallJson => true
  | _ => false
  end.

(** How often a call of a kind occurs in a log. *)
Definition count_calls (kind : Event -> bool) (log : list Event) : nat :=
  length (List.filter kind log).

(** The characters [search.toString()] can produce for a name or a value. *)
Definition urlencoded_char (c : ascii) : bool :=
  is_alnum c || Ascii.eqb c "*" || Ascii.eqb c "-" || Ascii.eqb c "."
  || Ascii.eqb c "_" || Ascii.eqb c "+" || Ascii.eqb c "%".

(** How often the character [c] occurs in [s]. *)
Fixpoint count_char (c : ascii) (s : string) : nat :=
  match s with
  | "" => 0
  | String a s' => (if Ascii.eqb a c then 1 else 0) + count_char c s'
  end.

(** How many of the two pagination keys are supplied. *)
Definition supplied_count (params : option (gmap string Data)) : nat :=
  match params with
  | None => 0
  | Some o =>
      (match supplied o "page" with Some _ => 1 | None => 0 end) +
      (match supplied o "per_page" with Some _ => 1 | None => 0 end)
  end.

(** Two invocations of [fetchTopics] in flight together: both start, then the
    first one settles with [first], then the other with [second]. *)
Definition fetchTopics_overlapping (first second : Completion Data)
  : list SetState :=
  (fetchTopics_before_await ++ fetchTopics_before_await ++
   fetchTopics_after_await first ++ fetchTopics_after_await second)%list.

(** What [fetchTopics] stores for a rejection [e]. *)
Definition stored_error (e : JsVal) : JsVal :=
  if instanceof_Error e then e else new_Error (String_of_thrown e).

(** [v] is the capture of [/lit([cls]+)/] in [ua], said without running the
    scanner: [v] is a run of [cls] right after an occurrence of [lit], the
    run goes on to its end, and no occurrence of [lit] followed by a
    character of [cls] starts further left. *)
Definition first_token (lit : string) (cls : ascii -> bool) (ua v : string)
  : Prop :=
  exists pre post,
    ua = pre ++ lit ++ v ++ post /\
    v <> "" /\ string_forall cls v = true /\
    take_while cls post = "" /\
    forall pre' v' post',
      ua = pre' ++ lit ++ v' ++ post' ->
      v' <> "" -> string_forall cls v' = true ->
      String.length pre <= String.length pre'.

(** Further sample inputs. *)
Module Fixture.
(** Options with a header of the caller's own. *)
Definition text_init : RequestInit :=
  {| method := Some "POST"; body := None;
     headers := Some {[ "Accept" := "text/plain" ]} |}.

(** The options [request] hands to [fetch] for [init]. *)
Definition sent_init (init : option RequestInit) : RequestInit :=
  with_headers init (request_headers Sample.client "test-token" init).

(** An ok response whose body does not parse. *)
Definition okNonJson : Promise Response :=
  Fulfilled {| ok := true; status := 200;
               json := Rejected (Error "SyntaxError" "Unexpected end of JSON input") |}.

(** A world without [navigator]. *)
Definition server_env : Environment :=
  {| navigator := None; timeZone := "UTC" |}.

Definition android_ua : string :=
  "Mozilla/5.0 (Linux; Android 14; Pixel 8) AppleWebKit/537.36 (KHTML, like Gecko) Chrome/120.0.6099.43 Mobile Safari/537.36".

Definition iphone_ua : string :=
  "Mozilla/5.0 (iPhone; CPU iPhone OS 17_2_1 like Mac OS X) AppleWebKit/605.1.15 (KHTML, like Gecko) Version/17.2 Mobile/15E148 Safari/604.1".
End Fixture.

(* ===================================================================== *)
(** * Properties *)
(* ===================================================================== *)

(** ** Conversion to strings *)

(** Where the conversion completes, [String_] is its result. *)
Lemma Data_elements_ind (P : Data -> Prop) :
  P DUndefined -> P DNull -> (forall b, P (DBool b)) ->
  (forall z, P (DNum z)) -> (forall s, P (DStr s)) ->
  (forall l, Forall P l -> P (DArr l)) ->
  (forall o, P (DObj o)) ->
  forall v, P v.
Proof.
  intros Hu Hn Hb Hz Hs Ha Ho.
  refine (fix IH (v : Data) : P v :=
            match v with
            | DUndefined => Hu
            | DNull => Hn
            | DBool b => Hb b
            | DNum z => Hz z
            | DStr s => Hs s
            | DArr l =>
                Ha l ((fix elements (l : list Data) : Forall P l :=
                         match l with
                         | [] => @List.Forall_nil _ P
                         | x :: l' =>
                             @List.Forall_cons _ P x l' (IH x) (elements l')
                         end) l)
            | DObj o => Ho o
            end).
Qed.

Lemma ToString_String_ v : forall s, ToString v = Some s -> String_ v = s.
Proof.
  induction v as [| |b|z|t|l IHl|o] using Data_elements_ind;
    intros s; cbn [ToString String_];
    try (intros [= <-]; reflexivity).
  - destruct b; intros [= <-]; reflexivity.
  - intros H. apply fmap_Some in H as (ss & Hm & ->). f_equal.
    revert ss Hm. induction IHl as [|x l Hx _ IH]; intros ss Hm.
    + cbn in Hm. injection Hm as <-. reflexivity.
    + cbn [mapM] in Hm.
      apply bind_Some in Hm as (y & Hy & Hm).
      apply bind_Some in Hm as (k & Hk & Hm).
      injection Hm as <-. cbn [map]. f_equal; [|exact (IH k Hk)].
      destruct x; try (injection Hy as <-; reflexivity);
        apply Hx; exact Hy.
  - destruct (o !! "toString"); intros [= <-]. reflexivity.
Qed.

(** What converts: everything but an object with a [toString] property of
    its own, alone or inside an array. *)
Lemma ToString_primitive v :
  match v with
  | DArr _ | DObj _ => True
  | _ => ToString v = Some (String_ v)
  end.
Proof. destruct v as [| |[]| | | |]; try exact I; reflexivity. Qed.

(** ** The request core *)

Section Request.
Variables (c : AsqioClient) (w : World).

(** [request], one case per path through its body. *)
Lemma request_unfold path init log :
  request c w path init log =
  match getToken c with
  | Rejected e =>
      (Throws (AsqioNetworkError "Failed to retrieve auth token" e),
       (log ++ [CallGetToken])%list)
  | Fulfilled token =>
      let url := baseUrl c ++ path in
      let init' := with_headers init (request_headers c token init) in
      match fetch w url init' with
      | Rejected e =>
          (Throws (AsqioNetworkError "Network request failed" e),
           (log ++ [CallGetToken; CallFetch url init'])%list)
      | Fulfilled response =>
          if (status response =? 204)%Z
          then (Returns DUndefined,
                (log ++ [CallGetToken; CallFetch url init'])%list)
          else if negb (ok response)
          then
            let errorBody := match json response with
                             | Fulfilled b => b
                             | Rejected _ => DUndefined
                             end in
            (Throws (thrown (new_AsqioError
                       (errorBody ?. "error" ??
                          DStr ("Request failed with status " ++
                                Number_toString (status response)))
                       (errorBody ?. "code" ?? DStr "INTERNAL_SERVER_ERROR")
                       (status response))),
             (log ++ [CallGetToken; CallFetch url init'; CallJson])%list)
          else
            (match json response with
             | Fulfilled b => Returns b
             | Rejected e => Throws e
             end,
             (log ++ [CallGetToken; CallFetch url init'; CallJson])%list)
      end
  end.
Proof.
  unfold request, mbind, Async_bind, try_catch, await, throw, mret, Async_ret.
  destruct (getToken c) as [token|e]; [|reflexivity].
  cbv zeta.
  destruct (fetch w (baseUrl c ++ path)
              (with_headers init (request_headers c token init)))
    as [response|e].
  - destruct (status response =? 204)%Z.
    + rewrite <- app_assoc. reflexivity.
    + destruct (ok response); cbn [negb].
      * destruct (json response); rewrite <- !app_assoc; reflexivity.
      * destruct (json response); rewrite <- !app_assoc; reflexivity.
  - rewrite <- app_assoc. reflexivity.
Qed.
End Request.

(** ** The eleven operations *)

Lemma member_pure v k log :
  member v k log = (outcome (member v k), log).
Proof. destruct v; reflexivity. Qed.

Lemma member_undefined k :
  outcome (member DUndefined k) =
  Throws (Error "TypeError"
            ("Cannot read properties of undefined (reading '" ++ k ++ "')")).
Proof. reflexivity. Qed.

(** Every operation is one [request] followed by a step that makes no call:
    handing the result on, dropping it, or reading one property of it. *)
Lemma perform_shape c w op :
  exists (a : ascii) (tail : string) init (k : Data -> Completion Data),
    a <> "/"%char /\
    (forall log,
        perform c w op log =
        match request c w ("/" ++ String a tail) init log with
        | (Returns d, log') => (k d, log')
        | (Throws e, log') => (Throws e, log')
        end) /\
    (unwraps op = false -> k DUndefined = Returns DUndefined).
Proof.
  assert (Hdirect : forall path init log,
             request c w path init log =
             match request c w path init log with
             | (Returns d, log') => (Returns d, log')
             | (Throws e, log') => (Throws e, log')
             end).
  { intros. destruct (request c w path init log) as [[d|e] l]; reflexivity. }
  destruct op; cbn [perform unwraps].
  - exists "t"%char, "opics", None, (fun d => outcome (member d "topics")).
    split; [discriminate|]. split; [|discriminate].
    intros log. unfold getTopics, mbind, Async_bind.
    destruct (request c w _ None log) as [[d|e] l]; [|reflexivity].
    apply member_pure.
  - exists "t"%char, ("ickets" ++ buildQuery params), None, Returns.
    split; [discriminate|]. split; [|reflexivity].
    intros log. apply (Hdirect ("/tickets" ++ buildQuery params)).
  - exists "t"%char, ("ickets/" ++ id), None, Returns.
    split; [discriminate|]. split; [|reflexivity].
    intros log. apply (Hdirect ("/tickets/" ++ id)).
  - eexists "t"%char, "ickets", _, Returns.
    split; [discriminate|]. split; [|reflexivity].
    intros log. apply (Hdirect "/tickets").
  - exists "t"%char, ("ickets/" ++ ticketId ++ "/messages" ++ buildQuery params),
      None, Returns.
    split; [discriminate|]. split; [|reflexivity].
    intros log.
    apply (Hdirect ("/tickets/" ++ ticketId ++ "/messages" ++ buildQuery params)).
  - eexists "t"%char, ("ickets/" ++ ticketId ++ "/messages"), _, Returns.
    split; [discriminate|]. split; [|reflexivity].
    intros log. apply (Hdirect ("/tickets/" ++ ticketId ++ "/messages")).
  - exists "t"%char, ("ickets/" ++ ticketId ++ "/read"),
      (Some {| method := Some "POST"; body := None; headers := None |}),
      (fun _ => Returns DUndefined).
    split; [discriminate|]. split; [|reflexivity].
    intros log. unfold markAsRead, mbind, Async_bind.
    change ("/tickets/" ++ ticketId ++ "/read")
      with ("/" ++ String "t" ("ickets/" ++ ticketId ++ "/read")).
    destruct (request c w _ _ log) as [[d|e] l]; reflexivity.
  - exists "u"%char, "nread_count", None,
      (fun d => outcome (member d "unread_count")).
    split; [discriminate|]. split; [|discriminate].
    intros log. unfold getUnreadCount, mbind, Async_bind.
    destruct (request c w _ None log) as [[d|e] l]; [|reflexivity].
    apply member_pure.
  - eexists "d"%char, "evices", _, Returns.
    split; [discriminate|]. split; [|reflexivity].
    intros log. apply (Hdirect "/devices").
  - eexists "d"%char, ("evices/" ++ id), _, Returns.
    split; [discriminate|]. split; [|reflexivity].
    intros log. apply (Hdirect ("/devices/" ++ id)).
  - exists "d"%char, ("evices/" ++ id),
      (Some {| method := Some "DELETE"; body := None; headers := None |}),
      (fun _ => Returns DUndefined).
    split; [discriminate|]. split; [|reflexivity].
    intros log. unfold deleteDevice, mbind, Async_bind.
    change ("/devices/" ++ id) with ("/" ++ String "d" ("evices/" ++ id)).
    destruct (request c w _ _ log) as [[d|e] l]; reflexivity.
Qed.

(** In a log of one operation, a [fetch] call is the one [request] made. *)
Lemma fetch_call_inv (url url' : string) (init init' : RequestInit)
    (rest : list Event) :
  CallFetch url init ∈ CallGetToken :: CallFetch url' init' :: rest ->
  CallFetch url init ∉ rest ->
  url = url' /\ init = init'.
Proof.
  intros Hin Hrest.
  apply elem_of_cons in Hin as [Hin|Hin]; [discriminate|].
  apply elem_of_cons in Hin as [Hin|Hin]; [|contradiction].
  injection Hin as -> ->. split; reflexivity.
Qed.

Lemma fetch_not_in_nil url init : CallFetch url init ∉ @nil Event.
Proof. apply not_elem_of_nil. Qed.

Lemma fetch_not_in_json url init : CallFetch url init ∉ [CallJson].
Proof. intros H. apply list_elem_of_singleton in H. discriminate. Qed.

(** What [perform] does from an empty log, along the paths of [request], and
    which [fetch] call its log can hold. *)
Lemma perform_run c w op :
  exists (a : ascii) (tail : string) init (k : Data -> Completion Data),
    a <> "/"%char /\
    (unwraps op = false -> k DUndefined = Returns DUndefined) /\
    (forall url init',
        CallFetch url init' ∈ calls (perform c w op) ->
        exists token,
          getToken c = Fulfilled token /\
          url = baseUrl c ++ "/" ++ String a tail /\
          init' = with_headers init (request_headers c token init)) /\
    run (perform c w op) =
    match getToken c with
    | Rejected e =>
        (Throws (AsqioNetworkError "Failed to retrieve auth token" e),
         [CallGetToken])
    | Fulfilled token =>
        let url := baseUrl c ++ "/" ++ String a tail in
        let init' := with_headers init (request_headers c token init) in
        match fetch w url init' with
        | Rejected e =>
            (Throws (AsqioNetworkError "Network request failed" e),
             [CallGetToken; CallFetch url init'])
        | Fulfilled response =>
            if (status response =? 204)%Z
            then (k DUndefined, [CallGetToken; CallFetch url init'])
            else if negb (ok response)
            then
              let errorBody := match json response with
                               | Fulfilled b => b
                               | Rejected _ => DUndefined
                               end in
              (Throws (thrown (new_AsqioError
                         (errorBody ?. "error" ??
                            DStr ("Request failed with status " ++
                                  Number_toString (status response)))
                         (errorBody ?. "code" ?? DStr "INTERNAL_SERVER_ERROR")
                         (status response))),
               [CallGetToken; CallFetch url init'; CallJson])
            else
              (match json response with
               | Fulfilled b => k b
               | Rejected e => Throws e
               end,
               [CallGetToken; CallFetch url init'; CallJson])
        end
    end.
Proof.
  destruct (perform_shape c w op) as (a & tail & init & k & Ha & Hrun & Hk).
  exists a, tail, init, k. split; [exact Ha|]. split; [exact Hk|].
  unfold calls, run. rewrite Hrun, request_unfold. cbv zeta.
  destruct (getToken c) as [token|e].
  2:{ split; [|reflexivity]. intros url init' Hin.
      apply list_elem_of_singleton in Hin. discriminate. }
  assert (Hone : forall url init' rest,
             CallFetch url init' ∉ rest ->
             CallFetch url init' ∈
               CallGetToken ::
               CallFetch (baseUrl c ++ "/" ++ String a tail)
                 (with_headers init (request_headers c token init)) :: rest ->
             exists token0,
               Fulfilled token = Fulfilled token0 /\
               url = baseUrl c ++ "/" ++ String a tail /\
               init' = with_headers init (request_headers c token0 init)).
  { intros url init' rest Hrest Hin. exists token. split; [reflexivity|].
    eapply fetch_call_inv; [exact Hin|exact Hrest]. }
  destruct (fetch w _ _) as [response|e].
  - destruct (status response =? 204)%Z.
    + split; [|reflexivity]. intros url init'.
      apply Hone, fetch_not_in_nil.
    + destruct (ok response); cbn [negb].
      * destruct (json response); (split; [|reflexivity]);
          intros url init'; apply Hone, fetch_not_in_json.
      * split; [|reflexivity]. intros url init'.
        apply Hone, fetch_not_in_json.
  - split; [|reflexivity]. intros url init'. apply Hone, fetch_not_in_nil.
Qed.

(** Splits a goal about [perform c w op] along the paths of [request]. *)
Ltac perform_paths c w op :=
  let a := fresh "a" in
  let tail := fresh "tail" in
  let init := fresh "init" in
  let k := fresh "k" in
  let Ha := fresh "Ha" in
  let Hk := fresh "Hk" in
  let Hcall := fresh "Hcall" in
  let Hrun := fresh "Hrun" in
  destruct (perform_run c w op)
    as (a & tail & init & k & Ha & Hk & Hcall & Hrun);
  unfold outcome, calls in *; rewrite Hrun in *; clear Hrun; cbv zeta in *.

(** The [fetch] call [Hin] speaks of is the one of the current path. *)
Ltac this_fetch_call Hcall Hin :=
  let token := fresh "token" in
  let Htoken := fresh "Htoken" in
  destruct (Hcall _ _ Hin) as (token & Htoken & -> & ->);
  rewrite Htoken in *.

(** ** Token resolution *)

(** C1. Every operation calls the token provider before any other injected
    capability.  If the provider rejects with [e], the operation rejects with
    the transport failure "Failed to retrieve auth token" whose cause is [e],
    and [fetch] is not called. *)
Theorem token_resolved_first c w op :
  (exists rest, calls (perform c w op) = CallGetToken :: rest) /\
  (forall e,
      getToken c = Rejected e ->
      outcome (perform c w op) =
        Throws (AsqioNetworkError "Failed to retrieve auth token" e) /\
      calls (perform c w op) = [CallGetToken] /\
      forall url init, CallFetch url init ∉ calls (perform c w op)).
Proof.
  perform_paths c w op. split.
  - destruct (getToken c) as [token|e]; [|eexists; reflexivity].
    destruct (fetch w _ _) as [response|e]; [|eexists; reflexivity].
    destruct (status response =? 204)%Z; [eexists; reflexivity|].
    destruct (negb (ok response)); eexists; reflexivity.
  - intros e He. rewrite He. cbn [fst snd].
    split; [reflexivity|]. split; [reflexivity|].
    intros url init' Hin. apply list_elem_of_singleton in Hin. discriminate.
Qed.

Lemma token_resolved_first_witness :
  getToken (new_AsqioClient Sample.config_no_token) =
    Rejected (Error "Error" "Token expired") /\
  outcome (perform (new_AsqioClient Sample.config_no_token)
             (Sample.world (Sample.okJson DNull)) (GetTickets None)) =
    Throws (AsqioNetworkError "Failed to retrieve auth token"
              (Error "Error" "Token expired")) /\
  calls (perform (new_AsqioClient Sample.config_no_token)
           (Sample.world (Sample.okJson DNull)) (GetTickets None)) =
    [CallGetToken].
Proof.
  split; [reflexivity|].
  destruct (token_resolved_first (new_AsqioClient Sample.config_no_token)
              (Sample.world (Sample.okJson DNull)) (GetTickets None))
    as [_ H].
  destruct (H (Error "Error" "Token expired") eq_refl) as (H1 & H2 & _).
  split; [exact H1 | exact H2].
Defined.

(** ** Responses *)

(** C2, as amended.  A response that is not ok (and not 204), whose body's
    [error] property -- when the body parses and has one -- converts to a
    string, makes the operation reject with a server-rejection failure
    carrying the response status.  Its message is that property as a string
    (itself when it is a string) when there is one (not [undefined], not
    [null]), else "Request failed with status <status>"; its code is the
    body's [code] property when there is one, else "INTERNAL_SERVER_ERROR".
    A body reader that rejects leads to the fallbacks, not to a rejection of
    its own. *)
Theorem not_ok_response_rejects c w op url init response :
  CallFetch url init ∈ calls (perform c w op) ->
  fetch w url init = Fulfilled response ->
  ok response = false ->
  status response <> 204%Z ->
  let parsed := match json response with
                | Fulfilled b => b
                | Rejected _ => DUndefined
                end in
  let synthesized :=
    "Request failed with status " ++ Number_toString (status response) in
  is_Some (ToString (parsed ?. "error")) ->
  exists message code,
    outcome (perform c w op) =
      Throws (AsqioError message code (status response)) /\
    (forall s, parsed ?. "error" = DStr s -> message = s) /\
    (not_nullish (parsed ?. "error") = true ->
       ToString (parsed ?. "error") = Some message) /\
    (not_nullish (parsed ?. "error") = false -> message = synthesized) /\
    (not_nullish (parsed ?. "code") = true -> code = parsed ?. "code") /\
    (not_nullish (parsed ?. "code") = false ->
       code = DStr "INTERNAL_SERVER_ERROR") /\
    (forall e, json response = Rejected e ->
       message = synthesized /\ code = DStr "INTERNAL_SERVER_ERROR").
Proof.
  intros Hin Hfetch Hok Hstatus parsed synthesized [text Htext].
  perform_paths c w op.
  this_fetch_call Hcall Hin. rewrite Hfetch in *.
  apply Z.eqb_neq in Hstatus. rewrite Hstatus, Hok in *. cbn [negb fst].
  fold parsed. fold synthesized.
  exists (if not_nullish (parsed ?. "error") then text else synthesized),
    (parsed ?. "code" ?? DStr "INTERNAL_SERVER_ERROR").
  split.
  { unfold new_AsqioError, Error_message.
    destruct (parsed ?. "error") eqn:Herror;
      cbn [nullish_coalesce not_nullish]; rewrite ?Htext; reflexivity. }
  repeat split.
  - intros s Hs. rewrite Hs in *. cbn in Htext. injection Htext as <-.
    reflexivity.
  - intros Hsome. rewrite Hsome. exact Htext.
  - intros Hnone. rewrite Hnone. reflexivity.
  - intros Hsome. destruct (parsed ?. "code"); try discriminate; reflexivity.
  - intros Hnone. destruct (parsed ?. "code"); try discriminate; reflexivity.
  - subst parsed. rewrite H. reflexivity.
  - subst parsed. rewrite H. reflexivity.
Qed.

Lemma not_ok_response_rejects_witness :
  outcome (perform Sample.client
             (Sample.world
                (Sample.errorJson 422 "Validation failed" "VALIDATION_ERROR"))
             (GetTickets None)) =
  Throws (AsqioError "Validation failed" (DStr "VALIDATION_ERROR") 422).
Proof.
  destruct (not_ok_response_rejects Sample.client
              (Sample.world
                 (Sample.errorJson 422 "Validation failed" "VALIDATION_ERROR"))
              (GetTickets None)
              "https://api.example.com/api/v1/tickets"
              (with_headers None
                 (request_headers Sample.client "test-token" None))
              {| ok := false; status := 422;
                 json := Fulfilled (DObj (<["error" := DStr "Validation failed"]>
                                            {[ "code" := DStr "VALIDATION_ERROR" ]})) |})
    as (message & code & Hout & Hmsg & _ & _ & Hcode & _).
  - apply list_elem_of_In. vm_compute. right. left. reflexivity.
  - reflexivity.
  - reflexivity.
  - discriminate.
  - eexists. reflexivity.
  - rewrite Hout. f_equal.
    rewrite (Hmsg "Validation failed" eq_refl), (Hcode eq_refl).
    reflexivity.
Defined.

(** The [error] property of a body is whatever the server sent.  An object
    with a property named [toString] does not convert to a string, the
    constructor of the failure throws, and the operation rejects with that
    [TypeError]: C2 as stated, for every body, does not hold. *)
Lemma not_ok_response_counterexample :
  ~ (forall c w op url init response,
        CallFetch url init ∈ calls (perform c w op) ->
        fetch w url init = Fulfilled response ->
        ok response = false ->
        status response <> 204%Z ->
        exists message code,
          outcome (perform c w op) =
            Throws (AsqioError message code (status response))).
Proof.
  intros H.
  destruct (H Sample.client (Sample.world Sample.errorObject)
              (GetTickets None)
              "https://api.example.com/api/v1/tickets"
              (with_headers None
                 (request_headers Sample.client "test-token" None))
              {| ok := false; status := 500;
                 json := Fulfilled
                           (DObj {[ "error" :=
                              DObj {[ "toString" := DNum 1 ]} ]}) |})
    as (message & code & Hout).
  - apply list_elem_of_In. vm_compute. right. left. reflexivity.
  - reflexivity.
  - reflexivity.
  - discriminate.
  - vm_compute in Hout. discriminate Hout.
Qed.

Example getTickets_error_object :
  outcome (getTickets Sample.client (Sample.world Sample.errorObject) None) =
  Throws (Error "TypeError" "Cannot convert object to primitive value").
Proof. reflexivity. Qed.

Example getTickets_error_number :
  outcome (getTickets Sample.client
             (Sample.world
                (Fulfilled {| ok := false; status := 400;
                              json := Fulfilled
                                        (DObj {[ "error" := DNum 42 ]}) |}))
             None) =
  Throws (AsqioError "42" (DStr "INTERNAL_SERVER_ERROR") 400).
Proof. reflexivity. Qed.

(** ** Transport failures *)

(** C3, as amended.  When [fetch] throws [e], the operation rejects with the
    transport failure "Network request failed" whose cause is [e] itself; that
    failure is not a server-rejection failure, and neither is its cause unless
    the thrown value [e] was one. *)
Theorem fetch_failure_wrapped c w op url init e :
  CallFetch url init ∈ calls (perform c w op) ->
  fetch w url init = Rejected e ->
  outcome (perform c w op) =
    Throws (AsqioNetworkError "Network request failed" e) /\
  (forall failure,
      outcome (perform c w op) = Throws failure ->
      instanceof_AsqioNetworkError failure = true /\
      instanceof_AsqioError failure = false) /\
  (forall message cause,
      outcome (perform c w op) = Throws (AsqioNetworkError message cause) ->
      cause = e /\
      (instanceof_AsqioError e = false ->
       instanceof_AsqioError cause = false)).
Proof.
  intros Hin Hfetch.
  perform_paths c w op.
  this_fetch_call Hcall Hin. rewrite Hfetch in *. cbn [fst].
  split; [reflexivity|]. split.
  - intros failure [= <-]. split; reflexivity.
  - intros message cause [= _ <-]. split; [reflexivity|]. intros He. exact He.
Qed.

Lemma fetch_failure_wrapped_witness :
  outcome (perform Sample.client
             (Sample.world (Rejected (Error "TypeError" "Failed to fetch")))
             (GetTickets None)) =
  Throws (AsqioNetworkError "Network request failed"
            (Error "TypeError" "Failed to fetch")).
Proof.
  apply (fetch_failure_wrapped Sample.client
           (Sample.world (Rejected (Error "TypeError" "Failed to fetch")))
           (GetTickets None)
           "https://api.example.com/api/v1/tickets"
           (with_headers None
              (request_headers Sample.client "test-token" None))
           (Error "TypeError" "Failed to fetch")).
  - apply list_elem_of_In. vm_compute. right. left. reflexivity.
  - reflexivity.
Defined.

(** The cause is whatever was thrown, so it is a server-rejection failure
    when [fetch] (a wrapper built on another client, say) throws one: the
    last part of C3 as stated does not hold. *)
Lemma fetch_failure_cause_counterexample :
  ~ (forall c w op url init e,
        CallFetch url init ∈ calls (perform c w op) ->
        fetch w url init = Rejected e ->
        forall message cause,
          outcome (perform c w op) =
            Throws (AsqioNetworkError message cause) ->
          instanceof_AsqioError cause = false).
Proof.
  intros H.
  specialize (H Sample.client
                (Sample.world
                   (Rejected (AsqioError "Forbidden" (DStr "FORBIDDEN") 403)))
                (GetTickets None)
                "https://api.example.com/api/v1/tickets"
                (with_headers None
                   (request_headers Sample.client "test-token" None))
                (AsqioError "Forbidden" (DStr "FORBIDDEN") 403)).
  assert (Hin : CallFetch "https://api.example.com/api/v1/tickets"
                  (with_headers None
                     (request_headers Sample.client "test-token" None))
                ∈ calls (perform Sample.client
                           (Sample.world
                              (Rejected (AsqioError "Forbidden"
                                           (DStr "FORBIDDEN") 403)))
                           (GetTickets None))).
  { apply list_elem_of_In. vm_compute. right. left. reflexivity. }
  specialize (H Hin eq_refl "Network request failed"
                (AsqioError "Forbidden" (DStr "FORBIDDEN") 403) eq_refl).
  discriminate H.
Qed.

(** ** No content *)

(** C4, as amended.  On a response with status 204 no operation calls the
    body reader, and every operation that hands the result of [request] on or
    drops it -- all but [getTopics] and [getUnreadCount] -- resolves with
    [undefined]. *)
Theorem no_content_response c w op url init response :
  CallFetch url init ∈ calls (perform c w op) ->
  fetch w url init = Fulfilled response ->
  status response = 204%Z ->
  (CallJson ∉ calls (perform c w op)) /\
  (unwraps op = false -> outcome (perform c w op) = Returns DUndefined).
Proof.
  intros Hin Hfetch Hstatus.
  perform_paths c w op.
  this_fetch_call Hcall Hin. rewrite Hfetch in *.
  rewrite Hstatus in *. cbn [Z.eqb Pos.eqb fst snd].
  split.
  - intros Hjson.
    apply elem_of_cons in Hjson as [Hjson|Hjson]; [discriminate|].
    apply list_elem_of_singleton in Hjson. discriminate.
  - exact Hk.
Qed.

Lemma no_content_response_witness :
  (CallJson ∉ calls (perform Sample.client (Sample.world Sample.noContent)
                       (MarkAsRead "t1"))) /\
  outcome (perform Sample.client (Sample.world Sample.noContent)
             (MarkAsRead "t1")) = Returns DUndefined.
Proof.
  destruct (no_content_response Sample.client (Sample.world Sample.noContent)
              (MarkAsRead "t1")
              "https://api.example.com/api/v1/tickets/t1/read"
              (with_headers
                 (Some {| method := Some "POST"; body := None;
                          headers := None |})
                 (request_headers Sample.client "test-token"
                    (Some {| method := Some "POST"; body := None;
                             headers := None |})))
              {| ok := true; status := 204;
                 json := Rejected (Error "Error" "No content") |})
    as [Hjson Hout].
  - apply list_elem_of_In. vm_compute. right. left. reflexivity.
  - reflexivity.
  - reflexivity.
  - split; [exact Hjson | exact (Hout eq_refl)].
Defined.

(** [getTopics] reads [res.topics] of the [undefined] that [request] yields
    for a 204: it rejects with a [TypeError], so C4 as stated, for every
    operation, does not hold. *)
Lemma no_content_counterexample :
  ~ (forall c w op url init response,
        CallFetch url init ∈ calls (perform c w op) ->
        fetch w url init = Fulfilled response ->
        status response = 204%Z ->
        outcome (perform c w op) = Returns DUndefined /\
        (CallJson ∉ calls (perform c w op))).
Proof.
  intros H.
  destruct (H Sample.client (Sample.world Sample.noContent) GetTopics
              "https://api.example.com/api/v1/topics"
              (with_headers None
                 (request_headers Sample.client "test-token" None))
              {| ok := true; status := 204;
                 json := Rejected (Error "Error" "No content") |})
    as [Hout _].
  - apply list_elem_of_In. vm_compute. right. left. reflexivity.
  - reflexivity.
  - reflexivity.
  - vm_compute in Hout. discriminate Hout.
Qed.

Example getTopics_no_content :
  outcome (getTopics Sample.client (Sample.world Sample.noContent)) =
  Throws (Error "TypeError"
            "Cannot read properties of undefined (reading 'topics')").
Proof. reflexivity. Qed.

(** The [fetch] call of a [request]. *)
Lemma request_fetch_call c w path init url init' :
  CallFetch url init' ∈ calls (request c w path init) ->
  exists token,
    getToken c = Fulfilled token /\
    url = baseUrl c ++ path /\
    init' = with_headers init (request_headers c token init).
Proof.
  unfold calls, run. rewrite request_unfold. cbv zeta.
  destruct (getToken c) as [token|e].
  2:{ intros Hin. apply list_elem_of_singleton in Hin. discriminate. }
  intros Hin. exists token. split; [reflexivity|].
  destruct (fetch w _ _) as [response|e].
  - destruct (status response =? 204)%Z.
    + eapply fetch_call_inv; [exact Hin|apply fetch_not_in_nil].
    + destruct (negb (ok response));
        (eapply fetch_call_inv; [exact Hin|apply fetch_not_in_json]).
  - eapply fetch_call_inv; [exact Hin|apply fetch_not_in_nil].
Qed.

(** ** Pagination *)

(** The value [buildQuery] sends for a supplied key. *)
Lemma supplied_prop params k :
  match supplied params k with
  | Some v => prop params k = v /\ not_nullish v = true
  | None => not_nullish (prop params k) = false
  end.
Proof.
  unfold supplied, prop.
  destruct (params !! k) as [[]|]; cbn; auto.
Qed.

(** C5. The query string holds exactly the supplied keys ([undefined] and
    [null] count as not supplied), [page] before [per_page], each with its
    value as a string, form-urlencoded; it is empty, without "?", when no key
    is supplied or there is no params object. *)
Theorem buildQuery_supplied_keys (params : option (gmap string Data)) :
  buildQuery params =
  match params with
  | None => ""
  | Some o =>
      match supplied o "page", supplied o "per_page" with
      | None, None => ""
      | Some p, None => "?page=" ++ urlencode (String_ p)
      | None, Some q => "?per_page=" ++ urlencode (String_ q)
      | Some p, Some q =>
          "?page=" ++ urlencode (String_ p) ++
          "&per_page=" ++ urlencode (String_ q)
      end
  end.
Proof.
  destruct params as [o|]; [|reflexivity].
  unfold buildQuery.
  pose proof (supplied_prop o "page") as Hp.
  pose proof (supplied_prop o "per_page") as Hq.
  destruct (supplied o "page") as [p|], (supplied o "per_page") as [q|].
  - destruct Hp as [-> ->], Hq as [-> ->]. reflexivity.
  - destruct Hp as [-> ->]. rewrite Hq. reflexivity.
  - destruct Hq as [-> ->]. rewrite Hp. reflexivity.
  - rewrite Hp, Hq. reflexivity.
Qed.

(** The two paginated operations append the query string to their path. *)
Lemma getTickets_url c w params url init :
  CallFetch url init ∈ calls (getTickets c w params) ->
  url = baseUrl c ++ "/tickets" ++ buildQuery params.
Proof.
  intros Hin. unfold getTickets in Hin.
  apply request_fetch_call in Hin as (token & _ & -> & _). reflexivity.
Qed.

Lemma getMessages_url c w ticketId params url init :
  CallFetch url init ∈ calls (getMessages c w ticketId params) ->
  url = baseUrl c ++ "/tickets/" ++ ticketId ++ "/messages" ++
        buildQuery params.
Proof.
  intros Hin. unfold getMessages in Hin.
  apply request_fetch_call in Hin as (token & _ & -> & _). reflexivity.
Qed.

Example buildQuery_both :
  buildQuery (Some (<["page" := DNum 2]> {[ "per_page" := DNum 10 ]})) =
  "?page=2&per_page=10".
Proof. reflexivity. Qed.

Example buildQuery_null_page :
  buildQuery (Some (<["page" := DNull]> {[ "per_page" := DNum 50 ]})) =
  "?per_page=50".
Proof. reflexivity. Qed.

Example buildQuery_empty : buildQuery (Some ∅) = "".
Proof. reflexivity. Qed.

(** ** The endpoint base *)

(** Unfolding [++] on strings by hand. *)
Lemma append_nil_l (s : string) : "" ++ s = s.
Proof. reflexivity. Qed.

Lemma append_cons (a : ascii) (s t : string) :
  String a s ++ t = String a (s ++ t).
Proof. reflexivity. Qed.

Lemma append_nil_r (s : string) : s ++ "" = s.
Proof.
  induction s as [|a s IH]; [reflexivity|].
  rewrite append_cons, IH. reflexivity.
Qed.

Lemma append_assoc (s t u : string) : (s ++ t) ++ u = s ++ t ++ u.
Proof.
  induction s as [|a s IH]; [reflexivity|].
  rewrite !append_cons, IH. reflexivity.
Qed.

Ltac unfold_append := rewrite ?append_cons, ?append_nil_l in *.

Section TrailingSlashes.

Lemma all_slashes_app s t :
  all_slashes (s ++ t) = all_slashes s && all_slashes t.
Proof.
  induction s as [|a s IH]; [reflexivity|].
  rewrite append_cons. cbn. rewrite IH. apply andb_assoc.
Qed.

Lemma all_slashes_slashes n : all_slashes (slashes n) = true.
Proof. induction n as [|n IH]; [reflexivity|exact IH]. Qed.

Lemma ends_with_slash_cons a s :
  ends_with_slash (String a s) <->
  (a = "/"%char /\ s = "") \/ ends_with_slash s.
Proof.
  split.
  - intros [[|b t] H]; unfold_append.
    + injection H as -> ->. left. split; reflexivity.
    + injection H as _ ->. right. exists t. reflexivity.
  - intros [[-> ->]|[t ->]].
    + exists "". reflexivity.
    + exists (String a t). reflexivity.
Qed.

Lemma not_ends_with_slash_empty : ~ ends_with_slash "".
Proof. intros [[|b t] H]; discriminate H. Qed.

Lemma all_slashes_ends s :
  all_slashes s = true -> s <> "" -> ends_with_slash s.
Proof.
  induction s as [|a s IH]; [congruence|].
  cbn. intros [Ha Hs]%andb_true_iff _.
  apply Ascii.eqb_eq in Ha. subst a.
  apply ends_with_slash_cons.
  destruct s as [|b s]; [left; split; reflexivity|].
  right. apply IH; [exact Hs|discriminate].
Qed.

Lemma strip_trailing_slashes_empty s :
  strip_trailing_slashes s = "" -> all_slashes s = true.
Proof.
  destruct s as [|a s]; [reflexivity|].
  cbn. destruct (Ascii.eqb a "/" && all_slashes s); [reflexivity|discriminate].
Qed.

(** Nothing is left to strip. *)
Lemma strip_trailing_slashes_clean s :
  ~ ends_with_slash (strip_trailing_slashes s).
Proof.
  induction s as [|a s IH]; [exact not_ends_with_slash_empty|].
  cbn. destruct (Ascii.eqb a "/" && all_slashes s) eqn:Hcond;
    [exact not_ends_with_slash_empty|].
  intros [[-> Hs]|Hs]%ends_with_slash_cons; [|exact (IH Hs)].
  apply strip_trailing_slashes_empty in Hs.
  rewrite Hs in Hcond. discriminate Hcond.
Qed.

(** Whatever the number of trailing separators, all of them go. *)
Lemma strip_trailing_slashes_app base n :
  ~ ends_with_slash base ->
  strip_trailing_slashes (base ++ slashes n) = base.
Proof.
  induction base as [|a base IH]; intros Hbase.
  - rewrite append_nil_l. destruct n as [|n]; [reflexivity|].
    cbn [slashes]. unfold_append. cbn.
    rewrite all_slashes_slashes. reflexivity.
  - rewrite append_cons. cbn.
    destruct (Ascii.eqb a "/" && all_slashes (base ++ slashes n))
      eqn:Hcond.
    + exfalso. apply Hbase.
      apply andb_true_iff in Hcond as [Ha Hall].
      rewrite all_slashes_app in Hall.
      apply andb_true_iff in Hall as [Hall _].
      apply all_slashes_ends; [|discriminate].
      cbn. rewrite Ha, Hall. reflexivity.
    + f_equal. apply IH. intros Hend. apply Hbase.
      apply ends_with_slash_cons. right. exact Hend.
Qed.

Lemma all_slashes_is_slashes s :
  all_slashes s = true -> s = slashes (String.length s).
Proof.
  induction s as [|b s IH]; [reflexivity|].
  cbn. intros [Hb Hall]%andb_true_iff.
  apply Ascii.eqb_eq in Hb. subst b. unfold_append.
  f_equal. exact (IH Hall).
Qed.

(** Every base is a clean prefix followed by some separators. *)
Lemma strip_trailing_slashes_split s :
  exists n, s = strip_trailing_slashes s ++ slashes n.
Proof.
  induction s as [|a s [n IH]]; [exists 0; reflexivity|].
  cbn. destruct (Ascii.eqb a "/" && all_slashes s) eqn:Hcond.
  - exists (String.length (String a s)). rewrite append_nil_l.
    apply all_slashes_is_slashes. exact Hcond.
  - exists n. rewrite append_cons. f_equal. exact IH.
Qed.

End TrailingSlashes.

(** C6. The constructor strips the trailing separators of the configured
    base, all of them and nothing else, whatever their number; so the URL of
    every request is the stripped base, one separator, and a rest that does
    not begin with a separator. *)
Theorem base_url_one_separator config :
  let c := new_AsqioClient config in
  (exists n, AsqioConfig.baseUrl config = baseUrl c ++ slashes n) /\
  ~ ends_with_slash (baseUrl c) /\
  (forall base n,
      AsqioConfig.baseUrl config = base ++ slashes n ->
      ~ ends_with_slash base ->
      baseUrl c = base) /\
  (forall w op url init,
      CallFetch url init ∈ calls (perform c w op) ->
      exists rest,
        url = baseUrl c ++ "/" ++ rest /\ ~ starts_with_slash rest).
Proof.
  intros c. split; [apply strip_trailing_slashes_split|].
  split; [apply strip_trailing_slashes_clean|]. split.
  - intros base n Hconfig Hbase. subst c. cbn. rewrite Hconfig.
    apply strip_trailing_slashes_app, Hbase.
  - intros w op url init Hin.
    destruct (perform_run c w op) as (a & tail & init0 & k & Ha & _ & Hcall & _).
    destruct (Hcall _ _ Hin) as (token & _ & -> & _).
    exists (String a tail). split; [reflexivity|].
    intros [t Ht]. unfold_append. injection Ht as -> _. apply Ha. reflexivity.
Qed.

Lemma base_url_one_separator_witness :
  baseUrl (new_AsqioClient Sample.config_slashes) =
    "https://api.example.com/api/v1" /\
  exists rest,
    "https://api.example.com/api/v1/unread_count" =
      "https://api.example.com/api/v1" ++ "/" ++ rest /\
    ~ starts_with_slash rest.
Proof.
  destruct (base_url_one_separator Sample.config_slashes)
    as (_ & Hclean & Hbase & Hurl).
  split.
  - apply (Hbase "https://api.example.com/api/v1" 3 eq_refl). exact Hclean.
  - apply (Hurl (Sample.world
                   (Sample.okJson (DObj {[ "unread_count" := DNum 0 ]})))
             GetUnreadCount
             "https://api.example.com/api/v1/unread_count"
             (with_headers None
                (request_headers (new_AsqioClient Sample.config_slashes)
                   "test-token" None))).
    apply list_elem_of_In. vm_compute. right. left. reflexivity.
Defined.

Example baseUrl_three_slashes :
  calls (getUnreadCount (new_AsqioClient Sample.config_slashes)
           (Sample.world Sample.noContent)) =
  [ CallGetToken;
    CallFetch "https://api.example.com/api/v1/unread_count"
      (with_headers None
         (request_headers (new_AsqioClient Sample.config_slashes)
            "test-token" None)) ].
Proof. reflexivity. Qed.

(** ** Ticket creation *)

(** The object literal of [createTicket], property by property. *)
Lemma createTicket_body_lookup c w (params : gmap string Data) (j : string) :
  createTicket_body c w params !! j =
  if decide ("app_version" = j)
  then Some (prop params "app_version" ?? of_option_string (appVersion c))
  else if decide ("timezone" = j)
  then Some (prop params "timezone" ??
               DStr (timezone (detectDeviceInfo (environment w))))
  else if decide ("locale" = j)
  then Some (prop params "locale" ??
               DStr (locale (detectDeviceInfo (environment w))))
  else if decide ("device_model" = j)
  then Some (prop params "device_model" ??
               DStr (device_model (detectDeviceInfo (environment w))))
  else if decide ("os_version" = j)
  then Some (prop params "os_version" ??
               DStr (os_version (detectDeviceInfo (environment w))))
  else if decide ("platform" = j)
  then Some (prop params "platform" ??
               DStr (platform (detectDeviceInfo (environment w))))
  else params !! j.
Proof.
  unfold createTicket_body, object_literal. cbn [foldl fst snd].
  rewrite !lookup_insert. reflexivity.
Qed.

Lemma createTicket_body_autofill c w (params : gmap string Data) (k : string) :
  k ∈ autofill_keys ->
  createTicket_body c w params !! k = Some (prop params k ?? autofill c w k).
Proof.
  intros Hk. rewrite createTicket_body_lookup.
  unfold autofill_keys in Hk.
  repeat (apply elem_of_cons in Hk as [->|Hk]; [reflexivity|]).
  apply elem_of_nil in Hk. contradiction.
Qed.

(** One property on its way out: [??], then [JSON.stringify]. *)
Lemma filled_property (params sent : gmap string Data) k auto :
  sent !! k =
    match prop params k ?? auto with
    | DUndefined => None
    | v => Some (JSON_stringify v)
    end ->
  match auto with DStr _ | DUndefined => True | _ => False end ->
  filled params sent k auto.
Proof.
  unfold filled, supplied, prop. intros -> Hauto.
  destruct (params !! k) as [[]|]; cbn [default nullish_coalesce];
    try reflexivity; destruct auto; try contradiction; reflexivity.
Qed.

(** The body [createTicket] sends is the JSON text of its object literal. *)
Lemma createTicket_sends c w params url init :
  CallFetch url init ∈ calls (createTicket c w params) ->
  url = baseUrl c ++ "/tickets" /\
  method init = Some "POST" /\
  exists sent,
    body init = Some (DObj sent) /\
    forall k,
      sent !! k =
      match createTicket_body c w params !! k with
      | None | Some DUndefined => None
      | Some v => Some (JSON_stringify v)
      end.
Proof.
  intros Hin. unfold createTicket in Hin. cbv zeta in Hin.
  apply request_fetch_call in Hin as (token & _ & -> & ->).
  split; [reflexivity|]. split; [reflexivity|].
  eexists. split; [reflexivity|].
  intros k. rewrite lookup_omap.
  destruct (createTicket_body c w params !! k) as [[]|]; reflexivity.
Qed.

(** C7. In the body of every [createTicket] request, each of [platform],
    [os_version], [device_model], [locale] and [timezone] is the caller's
    value when the caller supplied one, and the output of the fingerprint
    probe for the current environment otherwise; [app_version] is the
    caller's value when supplied, else the configured application version
    (left out of the body when none is configured). *)
Theorem createTicket_autofill c w params url init :
  CallFetch url init ∈ calls (createTicket c w params) ->
  let deviceInfo := detectDeviceInfo (environment w) in
  exists sent,
    body init = Some (DObj sent) /\
    filled params sent "platform" (DStr (platform deviceInfo)) /\
    filled params sent "os_version" (DStr (os_version deviceInfo)) /\
    filled params sent "device_model" (DStr (device_model deviceInfo)) /\
    filled params sent "locale" (DStr (locale deviceInfo)) /\
    filled params sent "timezone" (DStr (timezone deviceInfo)) /\
    filled params sent "app_version" (of_option_string (appVersion c)).
Proof.
  intros Hin deviceInfo.
  apply createTicket_sends in Hin as (_ & _ & sent & Hbody & Hsent).
  exists sent. split; [exact Hbody|].
  assert (Hfill : forall k, k ∈ autofill_keys ->
                    filled params sent k (autofill c w k)).
  { intros k Hk. apply filled_property.
    - rewrite Hsent, (createTicket_body_autofill c w params k Hk).
      destruct (prop params k ?? autofill c w k); reflexivity.
    - unfold autofill_keys in Hk.
      repeat (apply elem_of_cons in Hk as [->|Hk];
              [cbn; try destruct (appVersion c); exact I|]).
      apply elem_of_nil in Hk. contradiction. }
  repeat split.
  - apply (Hfill "platform"). set_solver.
  - apply (Hfill "os_version"). set_solver.
  - apply (Hfill "device_model"). set_solver.
  - apply (Hfill "locale"). set_solver.
  - apply (Hfill "timezone"). set_solver.
  - apply (Hfill "app_version"). set_solver.
Qed.

Lemma createTicket_autofill_witness :
  exists sent,
    body (Sample.create_options Sample.hello
            (Sample.world (Sample.okJson DNull))) = Some (DObj sent) /\
    filled Sample.hello sent "platform" (DStr "web") /\
    filled Sample.hello sent "os_version" (DStr "macOS 10.15.7") /\
    filled Sample.hello sent "device_model" (DStr "Chrome 120.0.0.0") /\
    filled Sample.hello sent "locale" (DStr "en-US") /\
    filled Sample.hello sent "timezone" (DStr "Asia/Tokyo") /\
    filled Sample.hello sent "app_version" DUndefined.
Proof.
  apply (createTicket_autofill Sample.client
           (Sample.world (Sample.okJson DNull)) Sample.hello
           "https://api.example.com/api/v1/tickets"
           (Sample.create_options Sample.hello
              (Sample.world (Sample.okJson DNull)))).
  apply list_elem_of_In. vm_compute. right. left. reflexivity.
Defined.

Example createTicket_explicit_fields :
  let params : gmap string Data :=
    <["platform" := DStr "ios"]>
      (<["os_version" := DStr "iOS 17.0"]>
         (<["device_model" := DStr "iPhone 15"]>
            (<["locale" := DStr "ja-JP"]>
               (<["timezone" := DStr "America/New_York"]> Sample.hello)))) in
  body (Sample.create_options params (Sample.world (Sample.okJson DNull))) =
  Some (DObj (list_to_map
                [ ("message", DStr "Hello");
                  ("platform", DStr "ios");
                  ("os_version", DStr "iOS 17.0");
                  ("device_model", DStr "iPhone 15");
                  ("locale", DStr "ja-JP");
                  ("timezone", DStr "America/New_York") ])).
Proof. vm_compute. reflexivity. Qed.

Example createTicket_configured_version :
  createTicket_body (new_AsqioClient Sample.config_slashes)
    (Sample.world (Sample.okJson DNull)) Sample.hello !! "app_version" =
  Some (DStr "2.0.0").
Proof. reflexivity. Qed.

(** [??] does not tell an explicit [null] from a missing property. *)
Lemma nullish_delete (params : gmap string Data) k j auto :
  params !! k = Some DNull ->
  prop (delete k params) j ?? auto = prop params j ?? auto.
Proof.
  intros Hnull. unfold prop.
  destruct (decide (k = j)) as [->|Hne].
  - rewrite lookup_delete_eq, Hnull. reflexivity.
  - rewrite lookup_delete_ne by exact Hne. reflexivity.
Qed.

Lemma createTicket_body_delete_null c w (params : gmap string Data) k :
  k ∈ autofill_keys ->
  params !! k = Some DNull ->
  createTicket_body c w (delete k params) = createTicket_body c w params.
Proof.
  intros Hk Hnull. apply map_eq. intros j.
  rewrite !createTicket_body_lookup.
  rewrite !(nullish_delete params k) by exact Hnull.
  repeat (case_decide; [reflexivity|]).
  apply lookup_delete_ne. intros <-.
  unfold autofill_keys in Hk.
  repeat (apply elem_of_cons in Hk as [->|Hk]; [congruence|]).
  apply elem_of_nil in Hk. contradiction.
Qed.

(** C10. An explicit [null] for one of the device fields or for
    [app_version] leaves [createTicket] exactly what it is without that
    property: the same request with the same body, in which the field carries
    the auto-detected (or configured) value and never [null]. *)
Theorem createTicket_explicit_null c w (params : gmap string Data) k :
  k ∈ autofill_keys ->
  params !! k = Some DNull ->
  createTicket c w params = createTicket c w (delete k params) /\
  forall url init,
    CallFetch url init ∈ calls (createTicket c w params) ->
    exists sent,
      body init = Some (DObj sent) /\
      sent !! k <> Some DNull /\
      sent !! k = match autofill c w k with
                  | DUndefined => None
                  | auto => Some auto
                  end.
Proof.
  intros Hk Hnull. split.
  - unfold createTicket.
    rewrite (createTicket_body_delete_null c w params k Hk Hnull).
    reflexivity.
  - intros url init Hin.
    apply createTicket_sends in Hin as (_ & _ & sent & Hbody & Hsent).
    exists sent. split; [exact Hbody|].
    assert (Hauto : sent !! k = match autofill c w k with
                                | DUndefined => None
                                | auto => Some auto
                                end).
    { rewrite Hsent, (createTicket_body_autofill c w params k Hk).
      unfold prop. rewrite Hnull. cbn [default nullish_coalesce].
      unfold autofill_keys in Hk.
      repeat (apply elem_of_cons in Hk as [->|Hk];
              [cbn; try destruct (appVersion c); reflexivity|]).
      apply elem_of_nil in Hk. contradiction. }
    split; [|exact Hauto].
    rewrite Hauto. unfold autofill.
    repeat (destruct (String.eqb k _); [discriminate|]).
    destruct (String.eqb k _); [|discriminate].
    destruct (appVersion c); discriminate.
Qed.

Lemma createTicket_explicit_null_witness :
  createTicket Sample.client (Sample.world (Sample.okJson DNull))
    Sample.hello_null_locale =
  createTicket Sample.client (Sample.world (Sample.okJson DNull))
    (delete "locale" Sample.hello_null_locale) /\
  exists sent,
    body (Sample.create_options Sample.hello_null_locale
            (Sample.world (Sample.okJson DNull))) = Some (DObj sent) /\
    sent !! "locale" <> Some DNull /\
    sent !! "locale" = Some (DStr "en-US").
Proof.
  destruct (createTicket_explicit_null Sample.client
              (Sample.world (Sample.okJson DNull))
              Sample.hello_null_locale "locale") as [Hsame Hsent].
  - apply list_elem_of_In. vm_compute. tauto.
  - reflexivity.
  - split; [exact Hsame|].
    apply (Hsent "https://api.example.com/api/v1/tickets").
    apply list_elem_of_In. vm_compute. right. left. reflexivity.
Defined.

(** ** The fingerprint probe *)

Section Regex.
Variable cls : ascii -> bool.

Lemma strip_prefix_app lit rest : strip_prefix lit (lit ++ rest) = Some rest.
Proof.
  induction lit as [|a lit IH]; [reflexivity|].
  rewrite append_cons. cbn. rewrite Ascii.eqb_refl. exact IH.
Qed.

Lemma strip_prefix_Some lit s rest :
  strip_prefix lit s = Some rest -> s = lit ++ rest.
Proof.
  revert s. induction lit as [|a lit IH]; intros s H; cbn in H.
  - injection H as ->. reflexivity.
  - destruct s as [|b s]; [discriminate|].
    destruct (Ascii.eqb a b) eqn:Hab; [|discriminate].
    apply Ascii.eqb_eq in Hab. subst b.
    rewrite append_cons. f_equal. apply IH. exact H.
Qed.

Lemma take_while_forall s : string_forall cls (take_while cls s) = true.
Proof.
  induction s as [|a s IH]; [reflexivity|].
  cbn. destruct (cls a) eqn:Ha; [|reflexivity].
  cbn. rewrite Ha. exact IH.
Qed.

Lemma take_while_split s : exists rest, s = take_while cls s ++ rest.
Proof.
  induction s as [|a s [rest IH]]; [exists ""; reflexivity|].
  cbn. destruct (cls a).
  - exists rest. rewrite append_cons. f_equal. exact IH.
  - exists (String a s). reflexivity.
Qed.

Lemma take_while_nonempty v post :
  v <> "" -> string_forall cls v = true -> take_while cls (v ++ post) <> "".
Proof.
  destruct v as [|a v]; [congruence|].
  intros _ [Ha _]%andb_true_iff.
  rewrite append_cons. cbn. rewrite Ha. discriminate.
Qed.

Lemma match_here_Some lit s v :
  match_here lit cls s = Some v ->
  v <> "" /\ string_forall cls v = true /\ exists post, s = lit ++ v ++ post.
Proof.
  unfold match_here.
  destruct (strip_prefix lit s) as [rest|] eqn:Hstrip; [|discriminate].
  apply strip_prefix_Some in Hstrip. subst s.
  pose proof (take_while_forall rest) as Hall.
  destruct (take_while_split rest) as [post Hpost].
  destruct (take_while cls rest) as [|a t]; [discriminate|].
  intros [= <-]. split; [discriminate|]. split; [exact Hall|].
  exists post. rewrite <- Hpost. reflexivity.
Qed.

Lemma match_here_token lit v post :
  v <> "" -> string_forall cls v = true ->
  exists v', match_here lit cls (lit ++ v ++ post) = Some v'.
Proof.
  intros Hv Hall. unfold match_here. rewrite strip_prefix_app.
  pose proof (take_while_nonempty v post Hv Hall) as Hne.
  destruct (take_while cls (v ++ post)) as [|a t]; [congruence|].
  eexists. reflexivity.
Qed.

(** The capture is a non-empty run of the class that follows the literal
    somewhere in the string. *)
Lemma regex_capture_Some lit s v :
  regex_capture lit cls s = Some v ->
  v <> "" /\ string_forall cls v = true /\
  exists pre post, s = pre ++ lit ++ v ++ post.
Proof.
  induction s as [|a s IH]; cbn [regex_capture].
  - destruct (match_here lit cls "") as [v'|] eqn:Hhere; [|discriminate].
    intros [= ->]. apply match_here_Some in Hhere as (Hv & Hall & post & Hs).
    split; [exact Hv|]. split; [exact Hall|]. exists "", post. exact Hs.
  - destruct (match_here lit cls (String a s)) as [v'|] eqn:Hhere.
    + intros [= ->]. apply match_here_Some in Hhere as (Hv & Hall & post & Hs).
      split; [exact Hv|]. split; [exact Hall|]. exists "", post. exact Hs.
    + intros Hrec. destruct (IH Hrec) as (Hv & Hall & pre & post & Hs).
      split; [exact Hv|]. split; [exact Hall|].
      exists (String a pre), post. rewrite append_cons, Hs. reflexivity.
Qed.

(** The test succeeds exactly on the strings that hold the signature. *)
Lemma regex_capture_has_token lit s :
  has_token lit cls s <-> exists v, regex_capture lit cls s = Some v.
Proof.
  split.
  - intros (pre & v & post & -> & Hv & Hall).
    induction pre as [|a pre IH].
    + rewrite append_nil_l.
      destruct (match_here_token lit v post Hv Hall) as [v' Hhere].
      exists v'. destruct (lit ++ v ++ post); cbn [regex_capture];
        rewrite Hhere; reflexivity.
    + rewrite append_cons. cbn [regex_capture].
      destruct (match_here lit cls _) as [v'|]; [exists v'; reflexivity|].
      exact IH.
  - intros [v Hcap].
    apply regex_capture_Some in Hcap as (Hv & Hall & pre & post & Hs).
    exists pre, v, post. split; [exact Hs|]. split; [exact Hv|exact Hall].
Qed.

Lemma regex_capture_None lit s :
  regex_capture lit cls s = None <-> ~ has_token lit cls s.
Proof.
  rewrite regex_capture_has_token.
  destruct (regex_capture lit cls s) as [v|].
  - split; [discriminate|]. intros H. exfalso. apply H. exists v. reflexivity.
  - split; [|reflexivity]. intros _ [v Hv]. discriminate Hv.
Qed.

Lemma has_token_occurs lit s : has_token lit cls s -> occurs lit s.
Proof.
  intros (pre & v & post & -> & _ & _). exists pre, (v ++ post). reflexivity.
Qed.
End Regex.

Lemma regex_test_occurs lit s : regex_test lit s = true <-> occurs lit s.
Proof.
  split.
  - induction s as [|a s IH]; cbn [regex_test].
    + destruct (strip_prefix lit "") as [rest|] eqn:Hstrip; [|discriminate].
      intros _. apply strip_prefix_Some in Hstrip. exists "", rest. exact Hstrip.
    + destruct (strip_prefix lit (String a s)) as [rest|] eqn:Hstrip.
      * intros _. apply strip_prefix_Some in Hstrip.
        exists "", rest. exact Hstrip.
      * intros Hrec. destruct (IH Hrec) as (pre & post & ->).
        exists (String a pre), post. reflexivity.
  - intros (pre & post & ->). induction pre as [|a pre IH].
    + rewrite append_nil_l.
      destruct (lit ++ post) eqn:Hs; cbn [regex_test]; rewrite <- Hs;
        rewrite strip_prefix_app; reflexivity.
    + rewrite append_cons. cbn [regex_test].
      destruct (strip_prefix lit _); [reflexivity|exact IH].
Qed.

Lemma or_string_nonempty s d : s <> "" -> or_string s d = s.
Proof.
  intros Hs. unfold or_string.
  destruct (String.eqb_spec s ""); [contradiction|reflexivity].
Qed.

Lemma occurs_nonempty lit s : lit <> "" -> occurs lit s -> s <> "".
Proof.
  intros Hlit (pre & post & ->).
  destruct pre as [|a pre]; [|discriminate].
  destruct lit as [|b lit]; [congruence|discriminate].
Qed.

(** C8. The browser signatures are tried in a fixed order.  An Edge
    signature wins whatever else the string holds, so a string with both an
    Edge and a Chrome signature yields Edge, never Chrome; then Chrome; then
    Firefox; a Safari signature counts only in a string without "Chrome";
    a non-empty string that matches nothing comes back as it is, and the
    empty string yields "Unknown". *)
Theorem detectBrowser_priority ua :
  let edge := has_token "Edg/" digit_or_dot ua in
  let chrome := has_token "Chrome/" digit_or_dot ua in
  let firefox := has_token "Firefox/" digit_or_dot ua in
  let safari := has_token "Safari/" digit_or_dot ua in
  (edge ->
     exists v, regex_capture "Edg/" digit_or_dot ua = Some v /\
               detectBrowser ua = "Edge " ++ v /\
               forall v', detectBrowser ua <> "Chrome " ++ v') /\
  (~ edge -> chrome ->
     exists v, regex_capture "Chrome/" digit_or_dot ua = Some v /\
               detectBrowser ua = "Chrome " ++ v) /\
  (~ edge -> ~ chrome -> firefox ->
     exists v, regex_capture "Firefox/" digit_or_dot ua = Some v /\
               detectBrowser ua = "Firefox " ++ v) /\
  (~ edge -> ~ firefox -> safari -> ~ occurs "Chrome" ua ->
     exists v, regex_capture "Safari/" digit_or_dot ua = Some v /\
               detectBrowser ua = "Safari " ++ v) /\
  (~ edge -> ~ chrome -> ~ firefox -> safari -> occurs "Chrome" ua ->
     detectBrowser ua = ua) /\
  (~ edge -> ~ chrome -> ~ firefox -> ~ safari -> ua <> "" ->
     detectBrowser ua = ua) /\
  detectBrowser "" = "Unknown".
Proof.
  intros edge chrome firefox safari. subst edge chrome firefox safari.
  unfold detectBrowser.
  repeat split.
  - intros [v Hv]%regex_capture_has_token. exists v. rewrite Hv.
    split; [reflexivity|]. split; [reflexivity|].
    intros v' Heq. unfold_append. discriminate Heq.
  - intros He%regex_capture_None [v Hv]%regex_capture_has_token.
    exists v. rewrite He, Hv. split; reflexivity.
  - intros He%regex_capture_None Hc%regex_capture_None
      [v Hv]%regex_capture_has_token.
    exists v. rewrite He, Hc, Hv. split; reflexivity.
  - intros He%regex_capture_None Hf%regex_capture_None
      [v Hv]%regex_capture_has_token Hnc.
    assert (Hc : regex_capture "Chrome/" digit_or_dot ua = None).
    { apply regex_capture_None. intros Htok. apply Hnc.
      destruct (has_token_occurs _ _ _ Htok) as (pre & post & ->).
      exists pre, ("/" ++ post). reflexivity. }
    assert (Ht : regex_test "Chrome" ua = false).
    { destruct (regex_test "Chrome" ua) eqn:Ht; [|reflexivity].
      apply regex_test_occurs in Ht. contradiction. }
    exists v. rewrite He, Hc, Hf, Hv, Ht. split; reflexivity.
  - intros He%regex_capture_None Hc%regex_capture_None Hf%regex_capture_None
      [v Hv]%regex_capture_has_token Hocc.
    rewrite He, Hc, Hf, Hv.
    pose proof (occurs_nonempty "Chrome" ua ltac:(discriminate) Hocc) as Hne.
    apply regex_test_occurs in Hocc. rewrite Hocc. cbn [negb].
    apply or_string_nonempty. exact Hne.
  - intros He%regex_capture_None Hc%regex_capture_None Hf%regex_capture_None
      Hs%regex_capture_None Hne.
    rewrite He, Hc, Hf, Hs. apply or_string_nonempty. exact Hne.
Qed.

Lemma detectBrowser_priority_witness :
  has_token "Edg/" digit_or_dot Sample.edge_ua /\
  has_token "Chrome/" digit_or_dot Sample.edge_ua /\
  detectBrowser Sample.edge_ua = "Edge 120.0.2210.91".
Proof.
  assert (Hedge : has_token "Edg/" digit_or_dot Sample.edge_ua).
  { exists "Mozilla/5.0 (Windows NT 10.0; Win64; x64) AppleWebKit/537.36 (KHTML, like Gecko) Chrome/120.0.0.0 Safari/537.36 ",
      "120.0.2210.91", "".
    split; [reflexivity|]. split; [discriminate|reflexivity]. }
  split; [exact Hedge|]. split.
  - exists "Mozilla/5.0 (Windows NT 10.0; Win64; x64) AppleWebKit/537.36 (KHTML, like Gecko) ",
      "120.0.0.0", " Safari/537.36 Edg/120.0.2210.91".
    split; [reflexivity|]. split; [discriminate|reflexivity].
  - destruct (proj1 (detectBrowser_priority Sample.edge_ua) Hedge)
      as (v & Hv & Hres & _).
    vm_compute in Hv. injection Hv as <-. exact Hres.
Defined.

Example detectBrowser_safari :
  detectBrowser Sample.safari_ua = "Safari 605.1.15".
Proof. reflexivity. Qed.

Example detectBrowser_bare_chrome :
  detectBrowser "Chrome Safari/605.1" = "Chrome Safari/605.1".
Proof. reflexivity. Qed.

Example detectBrowser_raw : detectBrowser "CustomBrowser/1.0" = "CustomBrowser/1.0".
Proof. reflexivity. Qed.

(** ** The topics hook *)






Example refetch_keeps_topics :
  topics (refetch Sample.client (Sample.world (Sample.errorNonJson 500))
            (mount Sample.client
               (Sample.world
                  (Sample.okJson (DObj {[ "topics" := Sample.topics ]}))))) =
  Sample.topics.
Proof. reflexivity. Qed.

Example fetchTopics_plain_rejection :
  error (apply_sets useTopics_initial
           (fetchTopics (Throws (Plain (DStr "string error"))))) =
  Some (Error "Error" "string error").
Proof. reflexivity. Qed.

(* ===================================================================== *)
(** * Further properties *)
(* ===================================================================== *)

(** ** Every operation is its row of the table *)

Lemma perform_request c w op log :
  perform c w op log =
  match request c w (op_path op) (op_init c w op) log with
  | (Returns d, log') => (op_result op d, log')
  | (Throws e, log') => (Throws e, log')
  end.
Proof.
  destruct op; cbn [perform op_path op_init op_result];
    unfold getTopics, getTickets, getTicket, createTicket, getMessages,
      sendMessage, markAsRead, getUnreadCount, registerDevice, updateDevice,
      deleteDevice, mbind, Async_bind; cbv zeta;
    match goal with
    | |- context [request ?c ?w ?p ?i ?l] =>
        destruct (request c w p i l) as [[d|e] l']
    end;
    try reflexivity; apply member_pure.
Qed.

(** [perform] from an empty log, with the URL, the options and the last step
    of the operation spelled out. *)
Lemma perform_run_table c w op :
  run (perform c w op) =
  match getToken c with
  | Rejected e =>
      (Throws (AsqioNetworkError "Failed to retrieve auth token" e),
       [CallGetToken])
  | Fulfilled token =>
      let url := baseUrl c ++ op_path op in
      let init' := with_headers (op_init c w op)
                     (request_headers c token (op_init c w op)) in
      match fetch w url init' with
      | Rejected e =>
          (Throws (AsqioNetworkError "Network request failed" e),
           [CallGetToken; CallFetch url init'])
      | Fulfilled response =>
          if (status response =? 204)%Z
          then (op_result op DUndefined, [CallGetToken; CallFetch url init'])
          else if negb (ok response)
          then
            let errorBody := match json response with
                             | Fulfilled b => b
                             | Rejected _ => DUndefined
                             end in
            (Throws (thrown (new_AsqioError
                       (errorBody ?. "error" ??
                          DStr ("Request failed with status " ++
                                Number_toString (status response)))
                       (errorBody ?. "code" ?? DStr "INTERNAL_SERVER_ERROR")
                       (status response))),
             [CallGetToken; CallFetch url init'; CallJson])
          else
            (match json response with
             | Fulfilled b => op_result op b
             | Rejected e => Throws e
             end,
             [CallGetToken; CallFetch url init'; CallJson])
      end
  end.
Proof.
  unfold run. rewrite perform_request, request_unfold. cbv zeta.
  destruct (getToken c) as [token|e]; [|reflexivity].
  destruct (fetch w _ _) as [response|e]; [|reflexivity].
  destruct (status response =? 204)%Z; [reflexivity|].
  destruct (ok response); cbn [negb]; [|reflexivity].
  destruct (json response); reflexivity.
Qed.

(** Splits a goal about [perform c w op] along the rows of
    [perform_run_table]. *)
Ltac table_paths c w op :=
  unfold outcome, calls in *; rewrite (perform_run_table c w op) in *;
  cbv zeta in *.

(** The [fetch] call in the log of an operation. *)
Lemma perform_fetch_call c w op url init :
  CallFetch url init ∈ calls (perform c w op) ->
  exists token,
    getToken c = Fulfilled token /\
    url = baseUrl c ++ op_path op /\
    init = with_headers (op_init c w op)
             (request_headers c token (op_init c w op)).
Proof.
  intros Hin. table_paths c w op.
  destruct (getToken c) as [token|e].
  2:{ apply list_elem_of_singleton in Hin. discriminate. }
  exists token. split; [reflexivity|].
  destruct (fetch w _ _) as [response|e].
  - destruct (status response =? 204)%Z.
    + eapply fetch_call_inv; [exact Hin|apply fetch_not_in_nil].
    + destruct (negb (ok response));
        (eapply fetch_call_inv; [exact Hin|apply fetch_not_in_json]).
  - eapply fetch_call_inv; [exact Hin|apply fetch_not_in_nil].
Qed.

(** No operation passes headers of its own. *)
Lemma op_init_headers c w op : op_init c w op ≫= headers = None.
Proof. destruct op; reflexivity. Qed.

(** ** Headers *)

Lemma default_headers_lookup c token (k : string) :
  default_headers c token !! k =
  if decide ("Accept" = k) then Some "application/json"
  else if decide ("Content-Type" = k) then Some "application/json"
  else if decide ("X-Tenant-Key" = k) then Some (tenantKey c)
  else if decide ("Authorization" = k) then Some ("Bearer " ++ token)
  else None.
Proof.
  unfold default_headers, object_literal. cbn [foldl fst snd].
  rewrite !lookup_insert, lookup_empty. reflexivity.
Qed.

(** X1. [request] hands [method] and [body] of its options on unchanged and
    merges the headers: a header of the caller's options wins, and each of
    the four headers [request] writes itself fills in where the caller gave
    none. *)
Theorem request_merges_headers c w path init url init' :
  CallFetch url init' ∈ calls (request c w path init) ->
  exists token sent,
    getToken c = Fulfilled token /\
    method init' = init ≫= method /\
    body init' = init ≫= body /\
    headers init' = Some sent /\
    forall k,
      sent !! k =
      match default ∅ (init ≫= headers) !! k with
      | Some v => Some v
      | None => default_headers c token !! k
      end.
Proof.
  intros Hin. apply request_fetch_call in Hin as (token & Htoken & _ & ->).
  exists token, (request_headers c token init).
  split; [exact Htoken|]. split; [reflexivity|]. split; [reflexivity|].
  split; [reflexivity|].
  intros k. unfold request_headers, spread_over.
  fold (default_headers c token). rewrite lookup_union.
  destruct (default ∅ (init ≫= headers) !! k) as [v|];
    destruct (default_headers c token !! k); reflexivity.
Qed.

Lemma request_merges_headers_witness :
  exists sent,
    method (Fixture.sent_init (Some Fixture.text_init)) = Some "POST" /\
    headers (Fixture.sent_init (Some Fixture.text_init)) = Some sent /\
    sent !! "Accept" = Some "text/plain" /\
    sent !! "Authorization" = Some "Bearer test-token".
Proof.
  destruct (request_merges_headers Sample.client
              (Sample.world Sample.noContent) "/x"
              (Some Fixture.text_init)
              "https://api.example.com/api/v1/x"
              (Fixture.sent_init (Some Fixture.text_init)))
    as (token & sent & Htoken & Hmethod & _ & Hsent & Hmerge).
  - apply list_elem_of_In. vm_compute. right. left. reflexivity.
  - injection Htoken as <-. exists sent.
    split; [exact Hmethod|]. split; [exact Hsent|].
    split; [exact (Hmerge "Accept")|exact (Hmerge "Authorization")].
Defined.

(** X2. Every request of every operation carries exactly four headers:
    [Authorization] with the bearer token the provider resolved for this
    call, [X-Tenant-Key] with the configured tenant key, and [Content-Type]
    and [Accept] set to JSON. *)
Theorem perform_sends_standard_headers c w op url init :
  CallFetch url init ∈ calls (perform c w op) ->
  exists token sent,
    getToken c = Fulfilled token /\
    headers init = Some sent /\
    sent !! "Authorization" = Some ("Bearer " ++ token) /\
    sent !! "X-Tenant-Key" = Some (tenantKey c) /\
    sent !! "Content-Type" = Some "application/json" /\
    sent !! "Accept" = Some "application/json" /\
    forall k,
      k <> "Authorization" -> k <> "X-Tenant-Key" ->
      k <> "Content-Type" -> k <> "Accept" ->
      sent !! k = None.
Proof.
  intros Hin. apply perform_fetch_call in Hin as (token & Htoken & _ & ->).
  exists token, (default_headers c token).
  split; [exact Htoken|]. split.
  - cbn [with_headers headers]. unfold request_headers, spread_over.
    rewrite op_init_headers. cbn [default].
    rewrite (left_id_L ∅ (∪)). reflexivity.
  - repeat split; try (rewrite default_headers_lookup; reflexivity).
    intros k H1 H2 H3 H4. rewrite default_headers_lookup.
    repeat (case_decide; [congruence|]). reflexivity.
Qed.

Lemma perform_sends_standard_headers_witness :
  exists token sent,
    getToken Sample.client = Fulfilled token /\
    headers (Sample.create_options Sample.hello
               (Sample.world (Sample.okJson DNull))) = Some sent /\
    sent !! "Authorization" = Some ("Bearer " ++ token) /\
    sent !! "X-Tenant-Key" = Some (tenantKey Sample.client) /\
    sent !! "Content-Type" = Some "application/json" /\
    sent !! "Accept" = Some "application/json" /\
    forall k,
      k <> "Authorization" -> k <> "X-Tenant-Key" ->
      k <> "Content-Type" -> k <> "Accept" ->
      sent !! k = None.
Proof.
  apply (perform_sends_standard_headers Sample.client
           (Sample.world (Sample.okJson DNull)) (CreateTicket Sample.hello)
           "https://api.example.com/api/v1/tickets").
  apply list_elem_of_In. vm_compute. right. left. reflexivity.
Defined.

(** ** One round trip *)

(** X3. Every operation calls the token provider exactly once and, in this
    order, [fetch] once when the token resolved and not at all otherwise, and
    the body reader at most once, never without a response and never on a
    204. *)
Theorem perform_one_round_trip c w op :
  let log := calls (perform c w op) in
  count_calls is_CallGetToken log = 1 /\
  count_calls is_CallFetch log =
    match getToken c with Fulfilled _ => 1 | Rejected _ => 0 end /\
  count_calls is_CallJson log <= 1 /\
  (exists url init,
      log = [CallGetToken] \/
      log = [CallGetToken; CallFetch url init] \/
      log = [CallGetToken; CallFetch url init; CallJson] /\
      exists response,
        fetch w url init = Fulfilled response /\
        status response <> 204%Z).
Proof.
  cbv zeta. table_paths c w op.
  destruct (getToken c) as [token|e].
  2:{ repeat split; try (cbn; lia). exists "", (with_headers None ∅). auto. }
  set (url := baseUrl c ++ op_path op).
  set (init := with_headers _ _).
  destruct (fetch w url init) as [response|e] eqn:Hfetch.
  2:{ repeat split; try (cbn; lia). exists url, init. auto. }
  destruct (status response =? 204)%Z eqn:Hstatus.
  { repeat split; try (cbn; lia). exists url, init. auto. }
  apply Z.eqb_neq in Hstatus.
  destruct (negb (ok response)); cbn [fst snd];
    (repeat split; try (cbn; lia); exists url, init; right; right;
     split; [reflexivity|]; exists response; split; [exact Hfetch|exact Hstatus]).
Qed.

(** ** Responses that are ok *)

(** X4. On an ok response (not a 204) whose body parses to [b], the
    operations that hand the result on resolve with [b] itself, [markAsRead]
    and [deleteDevice] resolve with [undefined], and [getTopics] and
    [getUnreadCount] resolve with the property [topics], respectively
    [unread_count], of [b] -- with [undefined] when [b] has no such
    property -- unless [b] is [null] or [undefined], on which they reject
    with a [TypeError]. *)
Theorem ok_response_resolves c w op url init response b :
  CallFetch url init ∈ calls (perform c w op) ->
  fetch w url init = Fulfilled response ->
  ok response = true ->
  status response <> 204%Z ->
  json response = Fulfilled b ->
  (unwraps op = false -> discards op = false ->
     outcome (perform c w op) = Returns b) /\
  (discards op = true -> outcome (perform c w op) = Returns DUndefined) /\
  (op = GetTopics -> not_nullish b = true ->
     outcome (perform c w op) = Returns (b ?. "topics")) /\
  (op = GetUnreadCount -> not_nullish b = true ->
     outcome (perform c w op) = Returns (b ?. "unread_count")) /\
  (unwraps op = true -> not_nullish b = false ->
     exists message,
       outcome (perform c w op) = Throws (Error "TypeError" message)).
Proof.
  intros Hin Hfetch Hok Hstatus Hjson.
  apply perform_fetch_call in Hin as (token & Htoken & -> & ->).
  table_paths c w op. rewrite Htoken, Hfetch.
  apply Z.eqb_neq in Hstatus. rewrite Hstatus, Hok, Hjson. cbn [negb fst].
  repeat split.
  - intros Hu Hd. destruct op; try discriminate; reflexivity.
  - intros Hd. destruct op; try discriminate; reflexivity.
  - intros -> Hb. destruct b; try discriminate; reflexivity.
  - intros -> Hb. destruct b; try discriminate; reflexivity.
  - intros Hu Hb. destruct op; try discriminate;
      destruct b; try discriminate; eexists; reflexivity.
Qed.

Lemma ok_response_resolves_witness :
  outcome (perform Sample.client
             (Sample.world
                (Sample.okJson (DObj {[ "unread_count" := DNum 5 ]})))
             GetUnreadCount) = Returns (DNum 5).
Proof.
  destruct (ok_response_resolves Sample.client
              (Sample.world
                 (Sample.okJson (DObj {[ "unread_count" := DNum 5 ]})))
              GetUnreadCount
              "https://api.example.com/api/v1/unread_count"
              (Fixture.sent_init None)
              {| ok := true; status := 200;
                 json := Fulfilled (DObj {[ "unread_count" := DNum 5 ]}) |}
              (DObj {[ "unread_count" := DNum 5 ]}))
    as (_ & _ & _ & Hcount & _).
  - apply list_elem_of_In. vm_compute. right. left. reflexivity.
  - reflexivity.
  - reflexivity.
  - discriminate.
  - reflexivity.
  - exact (Hcount eq_refl eq_refl).
Defined.

(** X5. On an ok response (not a 204) whose body reader rejects with [e],
    every operation -- [markAsRead] and [deleteDevice], which drop the body,
    included -- rejects with [e] as it is, not wrapped into either failure
    class. *)
Theorem ok_response_unparsable c w op url init response e :
  CallFetch url init ∈ calls (perform c w op) ->
  fetch w url init = Fulfilled response ->
  ok response = true ->
  status response <> 204%Z ->
  json response = Rejected e ->
  outcome (perform c w op) = Throws e.
Proof.
  intros Hin Hfetch Hok Hstatus Hjson.
  apply perform_fetch_call in Hin as (token & Htoken & -> & ->).
  table_paths c w op. rewrite Htoken, Hfetch.
  apply Z.eqb_neq in Hstatus. rewrite Hstatus, Hok, Hjson. reflexivity.
Qed.

Lemma ok_response_unparsable_witness :
  outcome (perform Sample.client (Sample.world Fixture.okNonJson)
             (MarkAsRead "t1")) =
  Throws (Error "SyntaxError" "Unexpected end of JSON input").
Proof.
  apply (ok_response_unparsable Sample.client
           (Sample.world Fixture.okNonJson) (MarkAsRead "t1")
           "https://api.example.com/api/v1/tickets/t1/read"
           (Fixture.sent_init
              (Some {| method := Some "POST"; body := None;
                       headers := None |}))
           {| ok := true; status := 200;
              json := Rejected (Error "SyntaxError"
                                  "Unexpected end of JSON input") |}).
  - apply list_elem_of_In. vm_compute. right. left. reflexivity.
  - reflexivity.
  - reflexivity.
  - discriminate.
  - reflexivity.
Defined.

(** ** What an operation can reject with *)

(** X6. Whatever an operation rejects with is a transport failure, a
    server-rejection failure, the rejection of the body reader of an ok
    response, the [TypeError] of reading a property of [undefined] or [null]
    -- for [getTopics] and [getUnreadCount] only --, or the [TypeError] of
    the failure's constructor on a response that is not ok and whose body has
    an [error] property that does not convert to a string. *)
Theorem rejection_kinds c w op x :
  outcome (perform c w op) = Throws x ->
  instanceof_AsqioNetworkError x = true \/
  instanceof_AsqioError x = true \/
  (exists url init response,
      CallFetch url init ∈ calls (perform c w op) /\
      fetch w url init = Fulfilled response /\
      ok response = true /\
      json response = Rejected x) \/
  (unwraps op = true /\ exists message, x = Error "TypeError" message) \/
  (x = cannot_convert /\
   exists url init response b,
     CallFetch url init ∈ calls (perform c w op) /\
     fetch w url init = Fulfilled response /\
     ok response = false /\
     json response = Fulfilled b /\
     ToString (b ?. "error") = None).
Proof.
  assert (Hresult : forall d,
             op_result op d = Throws x ->
             unwraps op = true /\ exists message, x = Error "TypeError" message).
  { intros d Hd. destruct op; try discriminate;
      (split; [reflexivity|]);
      destruct d; try discriminate; injection Hd as <-; eexists; reflexivity. }
  table_paths c w op.
  destruct (getToken c) as [token|e].
  2:{ intros [= <-]. left. reflexivity. }
  set (url := baseUrl c ++ op_path op).
  set (init := with_headers _ _).
  destruct (fetch w url init) as [response|e] eqn:Hfetch.
  2:{ intros [= <-]. left. reflexivity. }
  destruct (status response =? 204)%Z.
  { cbn [fst]. intros Hx. right. right. right. left. exact (Hresult _ Hx). }
  destruct (ok response) eqn:Hok; cbn [negb fst snd].
  - destruct (json response) as [b|e] eqn:Hjson.
    + intros Hx. right. right. right. left. exact (Hresult _ Hx).
    + intros [= <-]. right. right. left. exists url, init, response.
      split; [|split; [exact Hfetch|split; [exact Hok|exact Hjson]]].
      apply list_elem_of_In. right. left. reflexivity.
  - unfold new_AsqioError.
    destruct (Error_message _) as [text|] eqn:Hmessage; cbn [thrown].
    + intros [= <-]. right. left. reflexivity.
    + intros [= <-]. right. right. right. right. split; [reflexivity|].
      destruct (json response) as [b|e] eqn:Hjson; [|discriminate Hmessage].
      exists url, init, response, b.
      split; [apply list_elem_of_In; right; left; reflexivity|].
      split; [exact Hfetch|]. split; [exact Hok|]. split; [exact Hjson|].
      unfold Error_message in Hmessage.
      destruct (b ?. "error"); cbn [nullish_coalesce] in Hmessage;
        try discriminate Hmessage; exact Hmessage.
Qed.

Lemma rejection_kinds_witness :
  instanceof_AsqioNetworkError cannot_convert = true \/
  instanceof_AsqioError cannot_convert = true \/
  (exists url init response,
      CallFetch url init ∈
        calls (perform Sample.client (Sample.world Sample.errorObject)
                 (GetTickets None)) /\
      fetch (Sample.world Sample.errorObject) url init = Fulfilled response /\
      ok response = true /\
      json response = Rejected cannot_convert) \/
  (unwraps (GetTickets None) = true /\
   exists message, cannot_convert = Error "TypeError" message) \/
  (cannot_convert = cannot_convert /\
   exists url init response b,
     CallFetch url init ∈
       calls (perform Sample.client (Sample.world Sample.errorObject)
                (GetTickets None)) /\
     fetch (Sample.world Sample.errorObject) url init = Fulfilled response /\
     ok response = false /\
     json response = Fulfilled b /\
     ToString (b ?. "error") = None).
Proof.
  apply (rejection_kinds Sample.client (Sample.world Sample.errorObject)
           (GetTickets None)).
  reflexivity.
Defined.

(** ** The query string, character by character *)

Lemma string_forall_app (cls : ascii -> bool) s t :
  string_forall cls (s ++ t) = string_forall cls s && string_forall cls t.
Proof.
  induction s as [|a s IH]; [reflexivity|].
  rewrite append_cons. cbn. rewrite IH. apply andb_assoc.
Qed.

Lemma count_char_app c s t :
  count_char c (s ++ t) = count_char c s + count_char c t.
Proof.
  induction s as [|a s IH]; [reflexivity|].
  rewrite append_cons. cbn. rewrite IH. lia.
Qed.

Lemma count_char_outside (cls : ascii -> bool) c s :
  cls c = false -> string_forall cls s = true -> count_char c s = 0.
Proof.
  intros Hc. induction s as [|a s IH]; [reflexivity|].
  cbn. intros [Ha Hs]%andb_true_iff.
  destruct (Ascii.eqb_spec a c) as [->|_]; [congruence|].
  rewrite (IH Hs). reflexivity.
Qed.

Lemma urlencode_byte_chars c :
  string_forall urlencoded_char (urlencode_byte c) = true.
Proof. destruct c as [[] [] [] [] [] [] [] []]; reflexivity. Qed.

(** Whatever the text, its encoding is made of letters, digits and
    [* - . _ + %] only. *)
Lemma urlencode_chars s : string_forall urlencoded_char (urlencode s) = true.
Proof.
  induction s as [|a s IH]; [reflexivity|].
  cbn [urlencode]. rewrite string_forall_app, urlencode_byte_chars, IH.
  reflexivity.
Qed.

Lemma count_char_urlencode c s :
  urlencoded_char c = false -> count_char c (urlencode s) = 0.
Proof.
  intros Hc. apply (count_char_outside urlencoded_char); [exact Hc|].
  apply urlencode_chars.
Qed.

(** [buildQuery] on a params object, by the keys supplied. *)
Lemma buildQuery_by_supplied (o : gmap string Data) :
  buildQuery (Some o) =
  match supplied o "page", supplied o "per_page" with
  | None, None => ""
  | Some p, None => "?page=" ++ urlencode (String_ p)
  | None, Some q => "?per_page=" ++ urlencode (String_ q)
  | Some p, Some q =>
      "?page=" ++ urlencode (String_ p) ++ "&per_page=" ++ urlencode (String_ q)
  end.
Proof.
  unfold buildQuery.
  pose proof (supplied_prop o "page") as Hp.
  pose proof (supplied_prop o "per_page") as Hq.
  destruct (supplied o "page") as [p|], (supplied o "per_page") as [q|].
  - destruct Hp as [-> ->], Hq as [-> ->]. reflexivity.
  - destruct Hp as [-> ->]. rewrite Hq. reflexivity.
  - destruct Hq as [-> ->]. rewrite Hp. reflexivity.
  - rewrite Hp, Hq. reflexivity.
Qed.

(** X7. Whatever the values of [page] and [per_page] are, they cannot add a
    separator to the query string: it holds one "=" per supplied key, one "&"
    between two keys, one "?" when a key is supplied, and no "#" or "/". *)
Theorem buildQuery_separators (params : option (gmap string Data)) :
  count_char "=" (buildQuery params) = supplied_count params /\
  count_char "&" (buildQuery params) = supplied_count params - 1 /\
  count_char "?" (buildQuery params) = Nat.min 1 (supplied_count params) /\
  count_char "#" (buildQuery params) = 0 /\
  count_char "/" (buildQuery params) = 0.
Proof.
  destruct params as [o|]; [|repeat split].
  rewrite buildQuery_by_supplied. unfold supplied_count.
  destruct (supplied o "page") as [p|], (supplied o "per_page") as [q|];
    repeat split;
    rewrite ?count_char_app, ?count_char_urlencode by reflexivity;
    reflexivity.
Qed.

Example buildQuery_escapes_value :
  buildQuery (Some {[ "page" := DStr "1&per_page=999#x" ]}) =
  "?page=1%26per_page%3D999%23x".
Proof. reflexivity. Qed.

Lemma urlencode_uint d :
  urlencode (NilEmpty.string_of_uint d) = NilEmpty.string_of_uint d.
Proof.
  induction d as [|d IH|d IH|d IH|d IH|d IH|d IH|d IH|d IH|d IH|d IH];
    cbn [NilEmpty.string_of_uint urlencode]; rewrite ?IH; reflexivity.
Qed.

(** Decimal digits and the sign need no escaping. *)
Lemma urlencode_decimal z : urlencode (decimal z) = decimal z.
Proof.
  unfold decimal, NilZero.string_of_int, NilZero.string_of_uint.
  destruct (Z.to_int z) as [d|d]; destruct d;
    cbn [urlencode]; rewrite ?urlencode_uint; reflexivity.
Qed.

(** Up to [2 ^ 53] a number prints as its decimal digits. *)
Lemma Number_toString_safe z :
  (Z.abs z <= 2 ^ 53)%Z -> Number_toString z = decimal z.
Proof.
  intros Hz. unfold Number_toString.
  apply Z.leb_le in Hz. rewrite Hz. reflexivity.
Qed.

(** X8. Integer values of [page] and [per_page] of magnitude up to [2 ^ 53]
    go out as their decimal digits, unescaped: with both supplied the query
    string is "?page=<page>&per_page=<per_page>", with one of them it holds
    that key alone. *)
Theorem buildQuery_numbers (o : gmap string Data) (n : Z) :
  (Z.abs n <= 2 ^ 53)%Z ->
  (forall m,
      (Z.abs m <= 2 ^ 53)%Z ->
      o !! "page" = Some (DNum n) -> o !! "per_page" = Some (DNum m) ->
      buildQuery (Some o) =
      "?page=" ++ decimal n ++ "&per_page=" ++ decimal m) /\
  (o !! "page" = Some (DNum n) -> supplied o "per_page" = None ->
   buildQuery (Some o) = "?page=" ++ decimal n) /\
  (supplied o "page" = None -> o !! "per_page" = Some (DNum n) ->
   buildQuery (Some o) = "?per_page=" ++ decimal n).
Proof.
  intros Hn. repeat split.
  - intros m Hm Hp Hq. rewrite buildQuery_by_supplied. unfold supplied.
    rewrite Hp, Hq. cbn [String_].
    rewrite !Number_toString_safe by assumption.
    rewrite !urlencode_decimal. reflexivity.
  - intros Hp Hq. rewrite buildQuery_by_supplied, Hq. unfold supplied.
    rewrite Hp. cbn [String_]. rewrite Number_toString_safe by assumption.
    rewrite urlencode_decimal. reflexivity.
  - intros Hp Hq. rewrite buildQuery_by_supplied, Hp. unfold supplied.
    rewrite Hq. cbn [String_]. rewrite Number_toString_safe by assumption.
    rewrite urlencode_decimal. reflexivity.
Qed.

Lemma buildQuery_numbers_witness :
  buildQuery (Some (<["page" := DNum 3]> {[ "per_page" := DNum 50 ]})) =
  "?page=3&per_page=50".
Proof.
  apply (proj1 (buildQuery_numbers
                  (<["page" := DNum 3]> {[ "per_page" := DNum 50 ]}) 3%Z
                  ltac:(vm_compute; discriminate))
           50%Z ltac:(vm_compute; discriminate));
    reflexivity.
Defined.

(** From [1e21] on a number prints in exponent form, and its "+" is
    escaped. *)
Example buildQuery_exponent :
  buildQuery (Some {[ "page" := DNum (10 ^ 21) ]}) = "?page=1e%2B21".
Proof. vm_compute. reflexivity. Qed.

Example Number_toString_rounds :
  Number_toString (2 ^ 64) = "18446744073709552000" /\
  Number_toString 9007199254740993 = "9007199254740992" /\
  Number_toString (- 2 ^ 70) = "-1.1805916207174113e+21" /\
  Number_toString (2 ^ 1024) = "Infinity".
Proof. vm_compute. repeat split. Qed.

(** ** The stored base *)

(** X9. A configured base is stored unchanged exactly when it does not end in
    a separator, and stripping is idempotent: a client built from the base
    another client stores keeps that base. *)
Theorem strip_trailing_slashes_stable s :
  (strip_trailing_slashes s = s <-> ~ ends_with_slash s) /\
  strip_trailing_slashes (strip_trailing_slashes s) = strip_trailing_slashes s.
Proof.
  assert (Hfix : forall t, ~ ends_with_slash t -> strip_trailing_slashes t = t).
  { intros t Ht. rewrite <- (append_nil_r t) at 1.
    apply (strip_trailing_slashes_app t 0 Ht). }
  split.
  - split; [|apply Hfix].
    intros <-. apply strip_trailing_slashes_clean.
  - apply Hfix, strip_trailing_slashes_clean.
Qed.

(** ** Bodies *)



(** X11. Of its params [sendMessage] sends the [body] property and nothing
    else, wrapped as [{ message: { body } }]; without a [body] the inner
    object goes out empty. *)
Theorem sendMessage_sends_body_only c w ticketId (params : gmap string Data)
    url init :
  CallFetch url init ∈ calls (sendMessage c w ticketId params) ->
  url = baseUrl c ++ "/tickets/" ++ ticketId ++ "/messages" /\
  method init = Some "POST" /\
  body init =
    Some (DObj {[ "message" :=
            DObj (match prop params "body" with
                  | DUndefined => ∅
                  | v => {[ "body" := JSON_stringify v ]}
                  end) ]}).
Proof.
  intros Hin. unfold sendMessage in Hin.
  apply request_fetch_call in Hin as (token & _ & -> & ->).
  split; [reflexivity|]. split; [reflexivity|].
  cbn [with_headers body mbind option_bind JSON_stringify].
  erewrite omap_singleton_Some by reflexivity.
  do 3 f_equal.
  destruct (prop params "body"); cbn [JSON_stringify]; f_equal;
    first [ apply omap_singleton_None; reflexivity
          | apply omap_singleton_Some; reflexivity ].
Qed.

Lemma sendMessage_sends_body_only_witness :
  body (Fixture.sent_init
          (op_init Sample.client (Sample.world (Sample.okJson DNull))
             (SendMessage "t1"
                (<["extra" := DBool true]> {[ "body" := DStr "Hi" ]})))) =
  Some (DObj {[ "message" := DObj {[ "body" := DStr "Hi" ]} ]}).
Proof.
  destruct (sendMessage_sends_body_only Sample.client
              (Sample.world (Sample.okJson DNull)) "t1"
              (<["extra" := DBool true]> {[ "body" := DStr "Hi" ]})
              "https://api.example.com/api/v1/tickets/t1/messages"
              (Fixture.sent_init
                 (op_init Sample.client (Sample.world (Sample.okJson DNull))
                    (SendMessage "t1"
                       (<["extra" := DBool true]>
                          {[ "body" := DStr "Hi" ]})))))
    as (_ & _ & Hbody).
  - apply list_elem_of_In. vm_compute. right. left. reflexivity.
  - exact Hbody.
Defined.

(** X12. Ids go into the path as they are, unescaped: [getTicket] on the id
    [t/messages] is the very request [getMessages] makes for the ticket [t]
    without params. *)
Theorem getTicket_id_verbatim c w (ticketId : string) :
  getTicket c w (ticketId ++ "/messages") = getMessages c w ticketId None.
Proof.
  unfold getTicket, getMessages. cbn [buildQuery]. cbv zeta.
  rewrite append_nil_r. reflexivity.
Qed.

(** ** The probe, further *)

(** X13. The operating-system signatures are tried in the order Windows,
    macOS, Android, iOS, Linux: the first one the string holds decides,
    whatever follows (an Android user agent, which also says Linux, is
    Android), the underscores of a macOS or iOS version become dots, and a
    string with none of them is "Unknown". *)
Theorem detectOS_priority ua :
  let windows := has_token "Windows NT " digit_or_dot ua in
  let mac := has_token "Mac OS X " digit_or_underscore ua in
  let android := has_token "Android " digit_or_dot ua in
  let iphone := has_token "iPhone OS " digit_or_underscore ua in
  (windows ->
     exists v, regex_capture "Windows NT " digit_or_dot ua = Some v /\
               detectOS ua = "Windows " ++ v) /\
  (~ windows -> mac ->
     exists v, regex_capture "Mac OS X " digit_or_underscore ua = Some v /\
               detectOS ua = "macOS " ++ replace_underscores v) /\
  (~ windows -> ~ mac -> android ->
     exists v, regex_capture "Android " digit_or_dot ua = Some v /\
               detectOS ua = "Android " ++ v) /\
  (~ windows -> ~ mac -> ~ android -> iphone ->
     exists v, regex_capture "iPhone OS " digit_or_underscore ua = Some v /\
               detectOS ua = "iOS " ++ replace_underscores v) /\
  (~ windows -> ~ mac -> ~ android -> ~ iphone -> occurs "Linux" ua ->
     detectOS ua = "Linux") /\
  (~ windows -> ~ mac -> ~ android -> ~ iphone -> ~ occurs "Linux" ua ->
     detectOS ua = "Unknown").
Proof.
  cbv zeta. unfold detectOS. repeat split.
  - intros [v Hv]%regex_capture_has_token. exists v. rewrite Hv.
    split; reflexivity.
  - intros Hw%regex_capture_None [v Hv]%regex_capture_has_token.
    exists v. rewrite Hw, Hv. split; reflexivity.
  - intros Hw%regex_capture_None Hm%regex_capture_None
      [v Hv]%regex_capture_has_token.
    exists v. rewrite Hw, Hm, Hv. split; reflexivity.
  - intros Hw%regex_capture_None Hm%regex_capture_None Ha%regex_capture_None
      [v Hv]%regex_capture_has_token.
    exists v. rewrite Hw, Hm, Ha, Hv. split; reflexivity.
  - intros Hw%regex_capture_None Hm%regex_capture_None Ha%regex_capture_None
      Hi%regex_capture_None Hl%regex_test_occurs.
    rewrite Hw, Hm, Ha, Hi, Hl. reflexivity.
  - intros Hw%regex_capture_None Hm%regex_capture_None Ha%regex_capture_None
      Hi%regex_capture_None Hl.
    rewrite Hw, Hm, Ha, Hi.
    destruct (regex_test "Linux" ua) eqn:Ht; [|reflexivity].
    apply regex_test_occurs in Ht. contradiction.
Qed.

Lemma detectOS_priority_witness :
  has_token "Android " digit_or_dot Fixture.android_ua /\
  occurs "Linux" Fixture.android_ua /\
  detectOS Fixture.android_ua = "Android 14".
Proof.
  assert (Handroid : has_token "Android " digit_or_dot Fixture.android_ua).
  { exists "Mozilla/5.0 (Linux; ", "14",
      "; Pixel 8) AppleWebKit/537.36 (KHTML, like Gecko) Chrome/120.0.6099.43 Mobile Safari/537.36".
    split; [reflexivity|]. split; [discriminate|reflexivity]. }
  split; [exact Handroid|]. split.
  - exists "Mozilla/5.0 (",
      "; Android 14; Pixel 8) AppleWebKit/537.36 (KHTML, like Gecko) Chrome/120.0.6099.43 Mobile Safari/537.36".
    reflexivity.
  - destruct (detectOS_priority Fixture.android_ua)
      as (_ & _ & Hthird & _).
    destruct Hthird as (v & Hv & Hres).
    + apply regex_capture_None. reflexivity.
    + apply regex_capture_None. reflexivity.
    + exact Handroid.
    + vm_compute in Hv. injection Hv as <-. exact Hres.
Defined.

Lemma replace_underscores_class v :
  string_forall digit_or_underscore v = true ->
  string_forall digit_or_dot (replace_underscores v) = true.
Proof.
  induction v as [|a v IH]; [reflexivity|].
  cbn. intros [Ha Hv]%andb_true_iff. rewrite (IH Hv), andb_true_r.
  destruct (Ascii.eqb a "_") eqn:Hu; [reflexivity|].
  unfold digit_or_underscore in Ha. rewrite Hu, orb_false_r in Ha.
  unfold digit_or_dot. rewrite Ha. reflexivity.
Qed.

Lemma replace_underscores_nonempty v : v <> "" -> replace_underscores v <> "".
Proof. destruct v; [congruence|discriminate]. Qed.

(** A version the probe reports: at least one character, digits and dots
    only. *)
Lemma capture_dot_version lit ua v :
  regex_capture lit digit_or_dot ua = Some v ->
  v <> "" /\ string_forall digit_or_dot v = true.
Proof.
  intros (Hv & Hall & _)%regex_capture_Some. split; assumption.
Qed.

Lemma capture_underscore_version lit ua v :
  regex_capture lit digit_or_underscore ua = Some v ->
  replace_underscores v <> "" /\
  string_forall digit_or_dot (replace_underscores v) = true.
Proof.
  intros (Hv & Hall & _)%regex_capture_Some. split.
  - apply replace_underscores_nonempty, Hv.
  - apply replace_underscores_class, Hall.
Qed.

(** Membership in a list written out. *)
Ltac in_list := apply list_elem_of_In; cbn; tauto.

Lemma detectOS_nonempty ua : detectOS ua <> "".
Proof.
  unfold detectOS.
  repeat (destruct (regex_capture _ _ ua);
          [unfold_append; discriminate|]).
  destruct (regex_test "Linux" ua); discriminate.
Qed.

Lemma detectBrowser_nonempty ua : detectBrowser ua <> "".
Proof.
  unfold detectBrowser.
  do 3 (destruct (regex_capture _ _ ua); [unfold_append; discriminate|]).
  assert (Hraw : or_string ua "Unknown" <> "").
  { unfold or_string. destruct (String.eqb_spec ua ""); [discriminate|assumption]. }
  destruct (regex_capture _ _ ua); [|exact Hraw].
  destruct (negb (regex_test "Chrome" ua)); [|exact Hraw].
  unfold_append. discriminate.
Qed.

(** X14. Whatever the user agent, [detectOS] yields "Linux", "Unknown", or
    one of the names Windows, macOS, Android and iOS followed by a space and
    a version of at least one character made of digits and dots only (no
    underscore is left); it never yields the empty string. *)
Theorem detectOS_shape ua :
  (detectOS ua = "Linux" \/
   detectOS ua = "Unknown" \/
   exists name v,
     name ∈ ["Windows"; "macOS"; "Android"; "iOS"] /\
     detectOS ua = name ++ " " ++ v /\
     v <> "" /\ string_forall digit_or_dot v = true) /\
  detectOS ua <> "".
Proof.
  split; [|apply detectOS_nonempty].
  unfold detectOS.
  destruct (regex_capture "Windows NT " digit_or_dot ua) as [v|] eqn:Hw.
  { right. right. exists "Windows", v. split; [in_list|].
    split; [reflexivity|]. exact (capture_dot_version _ _ _ Hw). }
  destruct (regex_capture "Mac OS X " digit_or_underscore ua) as [v|] eqn:Hm.
  { right. right. exists "macOS", (replace_underscores v).
    split; [in_list|]. split; [reflexivity|].
    exact (capture_underscore_version _ _ _ Hm). }
  destruct (regex_capture "Android " digit_or_dot ua) as [v|] eqn:Ha.
  { right. right. exists "Android", v. split; [in_list|].
    split; [reflexivity|]. exact (capture_dot_version _ _ _ Ha). }
  destruct (regex_capture "iPhone OS " digit_or_underscore ua) as [v|] eqn:Hi.
  { right. right. exists "iOS", (replace_underscores v).
    split; [in_list|]. split; [reflexivity|].
    exact (capture_underscore_version _ _ _ Hi). }
  destruct (regex_test "Linux" ua); [left|right; left]; reflexivity.
Qed.

(** X15. Whatever the user agent, [detectBrowser] yields the user agent
    itself, "Unknown" for the empty one, or one of the names Edge, Chrome,
    Firefox and Safari followed by a space and a version of at least one
    character made of digits and dots only; it never yields the empty
    string. *)
Theorem detectBrowser_shape ua :
  ((ua <> "" /\ detectBrowser ua = ua) \/
   (ua = "" /\ detectBrowser ua = "Unknown") \/
   exists name v,
     name ∈ ["Edge"; "Chrome"; "Firefox"; "Safari"] /\
     detectBrowser ua = name ++ " " ++ v /\
     v <> "" /\ string_forall digit_or_dot v = true) /\
  detectBrowser ua <> "".
Proof.
  split; [|apply detectBrowser_nonempty].
  assert (Hraw : (ua <> "" /\ or_string ua "Unknown" = ua) \/
                 (ua = "" /\ or_string ua "Unknown" = "Unknown")).
  { unfold or_string. destruct (String.eqb_spec ua "") as [->|Hne];
      [right|left]; split; congruence. }
  unfold detectBrowser.
  destruct (regex_capture "Edg/" digit_or_dot ua) as [v|] eqn:He.
  { right. right. exists "Edge", v. split; [in_list|].
    split; [reflexivity|]. exact (capture_dot_version _ _ _ He). }
  destruct (regex_capture "Chrome/" digit_or_dot ua) as [v|] eqn:Hc.
  { right. right. exists "Chrome", v. split; [in_list|].
    split; [reflexivity|]. exact (capture_dot_version _ _ _ Hc). }
  destruct (regex_capture "Firefox/" digit_or_dot ua) as [v|] eqn:Hf.
  { right. right. exists "Firefox", v. split; [in_list|].
    split; [reflexivity|]. exact (capture_dot_version _ _ _ Hf). }
  destruct (regex_capture "Safari/" digit_or_dot ua) as [v|] eqn:Hs.
  - destruct (negb (regex_test "Chrome" ua)).
    + right. right. exists "Safari", v. split; [in_list|].
      split; [reflexivity|]. exact (capture_dot_version _ _ _ Hs).
    + destruct Hraw as [Hraw|Hraw]; [left|right; left]; exact Hraw.
  - destruct Hraw as [Hraw|Hraw]; [left|right; left]; exact Hraw.
Qed.

(** X16. The probe always reports the platform "web" and the time zone of
    the environment as it is; with a navigator, its language and what its
    user agent gives; without one (no browser around), "Unknown",
    "Unknown" and the locale "en".  No field but locale and time zone can be
    empty. *)
Theorem detectDeviceInfo_fields env :
  platform (detectDeviceInfo env) = "web" /\
  timezone (detectDeviceInfo env) = timeZone env /\
  (navigator env = None ->
     os_version (detectDeviceInfo env) = "Unknown" /\
     device_model (detectDeviceInfo env) = "Unknown" /\
     locale (detectDeviceInfo env) = "en") /\
  (forall nav,
      navigator env = Some nav ->
      os_version (detectDeviceInfo env) = detectOS (userAgent nav) /\
      device_model (detectDeviceInfo env) = detectBrowser (userAgent nav) /\
      locale (detectDeviceInfo env) = language nav) /\
  os_version (detectDeviceInfo env) <> "" /\
  device_model (detectDeviceInfo env) <> "".
Proof.
  unfold detectDeviceInfo. cbn [platform timezone os_version device_model locale].
  split; [reflexivity|]. split; [reflexivity|]. split; [|split; [|split]].
  - intros ->. repeat split.
  - intros nav ->. repeat split.
  - destruct (navigator env); apply detectOS_nonempty.
  - destruct (navigator env); apply detectBrowser_nonempty.
Qed.

Lemma detectDeviceInfo_fields_witness :
  os_version (detectDeviceInfo Fixture.server_env) = "Unknown" /\
  device_model (detectDeviceInfo Fixture.server_env) = "Unknown" /\
  locale (detectDeviceInfo Fixture.server_env) = "en".
Proof.
  destruct (detectDeviceInfo_fields Fixture.server_env)
    as (_ & _ & Hnone & _).
  exact (Hnone eq_refl).
Defined.

(** ** The topics hook, further *)

(** X17. When [getTopics] resolves with [r], a fetch of the hook -- the one
    of the mount or a [refetch] from any state -- ends with the topics cell
    holding [r], no error and loading false: an error of an earlier fetch is
    cleared, and nothing of the earlier state is left. *)
Theorem useTopics_success c w r st :
  outcome (getTopics c w) = Returns r ->
  refetch c w st = {| topics := r; loading := false; error := None |} /\
  mount c w = {| topics := r; loading := false; error := None |}.
Proof.
  intros Hr. unfold refetch, mount. rewrite Hr. split; reflexivity.
Qed.

Lemma useTopics_success_witness :
  refetch Sample.client
    (Sample.world (Sample.okJson (DObj {[ "topics" := Sample.topics ]})))
    (mount Sample.client (Sample.world (Sample.errorNonJson 500))) =
  {| topics := Sample.topics; loading := false; error := None |}.
Proof.
  apply (useTopics_success Sample.client
           (Sample.world (Sample.okJson (DObj {[ "topics" := Sample.topics ]})))
           Sample.topics
           (mount Sample.client (Sample.world (Sample.errorNonJson 500)))).
  reflexivity.
Defined.



(** X20. A mount whose request gets an ok response with a JSON object for a
    body stores that object's [topics] property and no error -- also when the
    object has no such property: the topics cell then holds [undefined], not
    the empty list. *)
Theorem useTopics_mount_object c w url init response (o : gmap string Data) :
  CallFetch url init ∈ calls (getTopics c w) ->
  fetch w url init = Fulfilled response ->
  ok response = true ->
  status response <> 204%Z ->
  json response = Fulfilled (DObj o) ->
  mount c w = {| topics := prop o "topics"; loading := false; error := None |} /\
  (o !! "topics" = None -> topics (mount c w) = DUndefined).
Proof.
  intros Hin Hfetch Hok Hstatus Hjson.
  change (getTopics c w) with (perform c w GetTopics) in Hin.
  apply perform_fetch_call in Hin as (token & Htoken & -> & ->).
  assert (Hout : outcome (getTopics c w) = Returns (prop o "topics")).
  { change (getTopics c w) with (perform c w GetTopics).
    table_paths c w GetTopics. rewrite Htoken, Hfetch.
    apply Z.eqb_neq in Hstatus. rewrite Hstatus, Hok, Hjson. reflexivity. }
  unfold mount. rewrite Hout. split; [reflexivity|].
  intros Hnone. cbn. unfold prop. rewrite Hnone. reflexivity.
Qed.

Lemma useTopics_mount_object_witness :
  mount Sample.client (Sample.world (Sample.okJson (DObj ∅))) =
  {| topics := DUndefined; loading := false; error := None |}.
Proof.
  destruct (useTopics_mount_object Sample.client
              (Sample.world (Sample.okJson (DObj ∅)))
              "https://api.example.com/api/v1/topics"
              (Fixture.sent_init None)
              {| ok := true; status := 200; json := Fulfilled (DObj ∅) |} ∅)
    as [Hmount _].
  - apply list_elem_of_In. vm_compute. right. left. reflexivity.
  - reflexivity.
  - reflexivity.
  - discriminate.
  - reflexivity.
  - exact Hmount.
Defined.

(** ** Which version the probe reports *)

Section FirstToken.
Variable cls : ascii -> bool.

Lemma take_while_rest s :
  exists post, s = take_while cls s ++ post /\ take_while cls post = "".
Proof.
  induction s as [|a s (post & Hs & Hpost)]; [exists ""; split; reflexivity|].
  cbn [take_while]. destruct (cls a) eqn:Ha.
  - exists post. split; [|exact Hpost].
    rewrite append_cons. f_equal. exact Hs.
  - exists (String a s). split; [reflexivity|]. cbn. rewrite Ha. reflexivity.
Qed.

Lemma take_while_run v post :
  string_forall cls v = true -> take_while cls post = "" ->
  take_while cls (v ++ post) = v.
Proof.
  intros Hv Hpost. induction v as [|a v IH]; [exact Hpost|].
  cbn in Hv. apply andb_true_iff in Hv as [Ha Hv].
  rewrite append_cons. cbn. rewrite Ha. f_equal. exact (IH Hv).
Qed.

Lemma append_inv_l (lit x y : string) : lit ++ x = lit ++ y -> x = y.
Proof.
  induction lit as [|a lit IH]; [trivial|].
  rewrite !append_cons. intros [= H]. exact (IH H).
Qed.

Lemma append_inv_length (pre pre' x y : string) :
  pre ++ x = pre' ++ y -> String.length pre = String.length pre' ->
  pre = pre' /\ x = y.
Proof.
  revert pre'. induction pre as [|a pre IH]; intros [|b pre'] Heq Hlen;
    try discriminate Hlen.
  - split; [reflexivity|exact Heq].
  - rewrite !append_cons in Heq. injection Heq as -> Heq.
    cbn in Hlen. injection Hlen as Hlen.
    destruct (IH pre' Heq Hlen) as [-> ->]. split; reflexivity.
Qed.

Lemma match_here_run lit s v :
  match_here lit cls s = Some v ->
  exists post,
    s = lit ++ v ++ post /\ v <> "" /\ string_forall cls v = true /\
    take_while cls post = "".
Proof.
  unfold match_here.
  destruct (strip_prefix lit s) as [rest|] eqn:Hstrip; [|discriminate].
  apply strip_prefix_Some in Hstrip. subst s.
  pose proof (take_while_forall cls rest) as Hall.
  destruct (take_while_rest rest) as (post & Hrest & Hpost).
  destruct (take_while cls rest) as [|a t]; [discriminate|].
  intros [= <-]. exists post. rewrite <- Hrest.
  split; [reflexivity|]. split; [discriminate|]. split; assumption.
Qed.

Lemma regex_capture_is_first lit s v :
  regex_capture lit cls s = Some v -> first_token lit cls s v.
Proof.
  induction s as [|a s IH]; cbn [regex_capture].
  - destruct (match_here lit cls "") as [v'|] eqn:Hhere; [|discriminate].
    intros [= ->].
    apply match_here_run in Hhere as (post & Hs & Hv & Hall & Hpost).
    exists "", post. repeat split; try assumption. intros. cbn. lia.
  - destruct (match_here lit cls (String a s)) as [v'|] eqn:Hhere.
    + intros [= ->].
      apply match_here_run in Hhere as (post & Hs & Hv & Hall & Hpost).
      exists "", post. repeat split; try assumption. intros. cbn. lia.
    + intros Hrec.
      destruct (IH Hrec) as (pre & post & Hs & Hv & Hall & Hpost & Hleft).
      exists (String a pre), post. rewrite append_cons, <- Hs.
      repeat split; try assumption.
      intros [|b pre'] v' post' Hs' Hv' Hall'.
      * exfalso. rewrite append_nil_l in Hs'.
        destruct (match_here_token cls lit v' post' Hv' Hall') as [v0 Hv0].
        rewrite <- Hs', Hhere in Hv0. discriminate Hv0.
      * rewrite append_cons in Hs'. injection Hs' as _ Hs'.
        cbn. apply le_n_S. exact (Hleft pre' v' post' Hs' Hv' Hall').
Qed.

(** X21. The version the probe takes for a signature is the run of class
    characters after the leftmost occurrence of the signature, taken to its
    end: [regex_capture] yields [v] exactly when [v] is that run. *)
Theorem regex_capture_first_token lit ua v :
  regex_capture lit cls ua = Some v <-> first_token lit cls ua v.
Proof.
  split; [apply regex_capture_is_first|].
  intros (pre & post & Hs & Hv & Hall & Hpost & Hleft).
  assert (Htoken : has_token lit cls ua) by (exists pre, v, post; auto).
  apply regex_capture_has_token in Htoken as [v0 Hv0].
  rewrite Hv0. f_equal.
  destruct (regex_capture_is_first lit ua v0 Hv0)
    as (pre0 & post0 & Hs0 & Hv0' & Hall0 & Hpost0 & Hleft0).
  pose proof (Hleft pre0 v0 post0 Hs0 Hv0' Hall0) as Hle.
  pose proof (Hleft0 pre v post Hs Hv Hall) as Hge.
  rewrite Hs in Hs0.
  destruct (append_inv_length _ _ _ _ Hs0 ltac:(lia)) as [_ Heq].
  apply append_inv_l in Heq.
  rewrite <- (take_while_run v0 post0 Hall0 Hpost0), <- Heq.
  apply take_while_run; assumption.
Qed.
End FirstToken.

Lemma regex_capture_first_token_witness :
  regex_capture "Chrome/" digit_or_dot
    "Chrome/120.0.6099.43 Mobile Chrome/99.1" = Some "120.0.6099.43".
Proof.
  apply (proj2 (regex_capture_first_token digit_or_dot "Chrome/"
                  "Chrome/120.0.6099.43 Mobile Chrome/99.1" "120.0.6099.43")).
  exists "", " Mobile Chrome/99.1".
  split; [reflexivity|]. split; [discriminate|].
  split; [reflexivity|]. split; [reflexivity|].
  intros pre' v' post' _ _ _. cbn. lia.
Defined.
